(** * MiniMind pre-training driver: the orchestration contract of
      [train_pretrain.py]

    The script is a thin loop around a deep-learning framework.  What it
    decides itself is *when* the framework is invoked: the learning-rate
    schedule, the gradient-accumulation boundary, the rank gate in front of
    logging and checkpointing, and the checkpoint path.  This development
    embeds that control flow and proves the properties of the schedule, of
    the loss normalisation and of the event order.

    Conventions.
    - Python [int] is [Z]; [%] on ints is [Z.modulo] (same sign convention)
      with the [ZeroDivisionError] of a zero divisor written out.
    - Python and tensor floats are idealised as real numbers ([R]); a float
      division by a zero tensor, which yields [nan]/[inf] rather than an
      exception, is the absent value [None].
    - The framework objects (model, optimizer, scaler, files) are an explicit
      state record threaded through a state-and-exception monad; every call
      into the framework also leaves an event in a trace. *)

From Stdlib Require Import ZArith List Reals Lra Lia Bool String Ascii.
From Stdlib Require Import DecimalString DecimalPos DecimalZ.
From stdpp Require Import gmap strings.

Set Default Proof Using "Type*".

Open Scope Z_scope.

(** ** Exceptions and results *)

Inductive exn : Type :=
| ZeroDivisionError
| IndexError
| ShapeError
| KeyError
| AttributeError.

Inductive result (A : Type) : Type :=
| Ok (a : A)
| Raise (e : exn).
Arguments Ok {A} a.
Arguments Raise {A} e.

(** ** The learning-rate schedule: [get_lr] *)

Module Schedule.

(** [lr / 10 + 0.5 * lr * (1 + math.cos(math.pi * current_step / total_steps))];
    the float division by the int [total_steps] raises when it is zero. *)
Definition get_lr (current_step total_steps : Z) (lr : R) : result R :=
  if total_steps =? 0 then Raise ZeroDivisionError
  else Ok (lr / 10 + 5 / 10 * lr * (1 + cos (PI * IZR current_step / IZR total_steps)))%R.

End Schedule.

(** ** Tensors and the batch loss *)

(** A two-dimensional tensor (batch x sequence) is a list of rows. *)
Definition Tensor (A : Type) : Type := list (list A).

(** What the driver takes from the framework without looking inside: the
    forward pass of the model (logits per position and the auxiliary loss),
    the per-position cross entropy behind
    [nn.CrossEntropyLoss(reduction='none')], the readings of [time.time()],
    the number of trainable parameters and the text of a float in an
    f-string. *)
Class Framework : Type := {
  Logits : Type;
  model_forward : Tensor Z -> Tensor Logits * R;
  cross_entropy : Logits -> Z -> R;
  wall_clock : nat -> R;
  param_count : R;
  float_repr : R -> string
}.

(** One element of [train_loader]: the tuple [(X, Y, loss_mask)]. *)
Record Batch : Type := {
  X : Tensor Z;
  Y : Tensor Z;
  loss_mask : Tensor Z
}.

Module Loss.

Definition shape {A : Type} (t : Tensor A) : list nat := map (@List.length A) t.

(** [t.view(-1)] *)
Definition view_flat {A : Type} (t : Tensor A) : list A := concat t.

(** [flat.view(other.size())]: the same elements, cut into rows. *)
Fixpoint view_as {A : Type} (flat : list A) (sizes : list nat) : Tensor A :=
  match sizes with
  | [] => []
  | n :: rest => firstn n flat :: view_as (skipn n flat) rest
  end.

Definition rsum (l : list R) : R := fold_right Rplus 0%R l.
Definition zsum (l : list Z) : Z := fold_right Z.add 0 l.

(** [t.sum()] over every element. *)
Definition tsum (t : Tensor R) : R := rsum (view_flat t).
Definition tsum_mask (t : Tensor Z) : Z := zsum (view_flat t).

Fixpoint mul_row (l : list R) (m : list Z) : list R :=
  match l, m with
  | x :: l', k :: m' => (x * IZR k)%R :: mul_row l' m'
  | _, _ => []
  end.

Fixpoint mul_rows (a : Tensor R) (m : Tensor Z) : Tensor R :=
  match a, m with
  | r :: a', k :: m' => mul_row r k :: mul_rows a' m'
  | _, _ => []
  end.

Definition same_shape {A B : Type} (a : Tensor A) (b : Tensor B) : bool :=
  bool_decide (shape a = shape b).

(** [a * m], elementwise, for tensors of one shape.  The broadcasting of
    two shapes that differ is not modelled: a difference is reported as
    [ShapeError] here, and every statement about the product is about
    tensors of one shape. *)
Definition tmul (a : Tensor R) (m : Tensor Z) : result (Tensor R) :=
  if same_shape a m then Ok (mul_rows a m) else Raise ShapeError.

(** A float division: no exception on a zero divisor, but no number
    either. *)
Definition fdiv (x y : R) : option R :=
  if Req_dec_T y 0%R then None else Some (x / y)%R.

Section WithFramework.
Context {FW : Framework}.

Fixpoint ce_each (logits : list Logits) (targets : list Z) : list R :=
  match logits, targets with
  | z :: logits', y :: targets' => cross_entropy z y :: ce_each logits' targets'
  | _, _ => []
  end.

(** [loss_fct(input, target)] with [reduction='none']. *)
Definition loss_fct (logits : list Logits) (targets : list Z) : result (list R) :=
  if (List.length logits =? List.length targets)%nat
  then Ok (ce_each logits targets)
  else Raise ShapeError.

(** [(loss * loss_mask).sum() / loss_mask.sum()] *)
Definition masked_mean (loss : Tensor R) (mask : Tensor Z) : result (option R) :=
  match tmul loss mask with
  | Raise e => Raise e
  | Ok prod => Ok (fdiv (tsum prod) (IZR (tsum_mask mask)))
  end.

(** Lines 67-71: forward pass and per-token loss, in the shape of [Y];
    with it the auxiliary loss of the model. *)
Definition token_losses (b : Batch) : result (Tensor R * R) :=
  let (logits, aux_loss) := model_forward (X b) in
  match loss_fct (view_flat logits) (view_flat (Y b)) with
  | Raise e => Raise e
  | Ok per_token => Ok (view_as per_token (shape (Y b)), aux_loss)
  end.

(** Lines 72-74: masked mean, auxiliary loss, division by
    [accumulation_steps]. *)
Definition normalize (loss : Tensor R) (aux_loss : R) (mask : Tensor Z)
    (accumulation_steps : Z) : result (option R) :=
  match masked_mean loss mask with
  | Raise e => Raise e
  | Ok mean =>
      let loss := option_map (fun l => (l + aux_loss)%R) mean in
      Ok (match loss with
          | Some l => fdiv l (IZR accumulation_steps)
          | None => None
          end)
  end.

(** The loss of a micro-step, lines 67-74. *)
Definition batch_loss (b : Batch) (accumulation_steps : Z) : result (option R) :=
  match token_losses b with
  | Raise e => Raise e
  | Ok (loss, aux_loss) => normalize loss aux_loss (loss_mask b) accumulation_steps
  end.

(** The per-token loss, row by row, of logits that come in the shape of the
    targets. *)
Fixpoint ce_rows (logits : Tensor Logits) (targets : Tensor Z) : Tensor R :=
  match logits, targets with
  | l :: logits', y :: targets' => ce_each l y :: ce_rows logits' targets'
  | _, _ => []
  end.

(** The batch goes through the loss computation without a shape error. *)
Definition well_shaped (b : Batch) : bool :=
  (List.length (view_flat (fst (model_forward (X b))))
     =? List.length (view_flat (Y b)))%nat
  && same_shape (Y b) (loss_mask b).

End WithFramework.

(** Two tensors of one shape that agree wherever the mask is not zero. *)
Definition agree_on_valid {A : Type} (mask : Tensor Z) (t t' : Tensor A) : Prop :=
  shape t = shape t' /\
  forall (i j : nat) (row : list Z) (m : Z),
    mask !! i = Some row -> row !! j = Some m -> m <> 0 ->
    (t !! i) ≫= (fun r : list A => r !! j) = (t' !! i) ≫= (fun r : list A => r !! j).

(** Two batches that differ only in positions where the mask is zero. *)
Definition differ_only_masked (b b' : Batch) : Prop :=
  loss_mask b = loss_mask b' /\
  agree_on_valid (loss_mask b) (X b) (X b') /\
  agree_on_valid (loss_mask b) (Y b) (Y b').

End Loss.

(** ** Configuration *)

(** The namespace returned by [parser.parse_args()].  [save_dir] and
    [wandb_run_name] are no command-line options: the attributes do not
    exist until the script assigns them. *)
Record Args : Type := {
  out_dir : string;
  epochs : Z;
  batch_size : Z;
  learning_rate : R;
  device : string;
  dtype : string;
  use_wandb : bool;
  wandb_project : string;
  num_workers : Z;
  arg_ddp : bool;
  accumulation_steps : Z;
  grad_clip : R;
  warmup_iters : Z;
  log_interval : Z;
  save_interval : Z;
  local_rank : Z;
  arg_dim : Z;
  n_layers : Z;
  max_seq_len : Z;
  arg_use_moe : bool;
  data_path : string;
  save_dir : option string;
  wandb_run_name : option string
}.

Record LMConfig : Type := {
  dim : Z;
  cfg_n_layers : Z;
  cfg_max_seq_len : Z;
  use_moe : bool
}.

(** The launcher's environment variables, already read as integers. *)
Record Environ : Type := {
  env_RANK : option Z;
  env_LOCAL_RANK : option Z;
  env_WORLD_SIZE : option Z
}.

(** The module-level names [train_epoch] and [Logger] read but never
    assign. *)
Record Globals : Type := {
  ddp : bool;
  rank : Z;                      (* dist.get_rank() *)
  lm_config : LMConfig;
  train_loader : list Batch;
  iter_per_epoch : Z
}.

(** ** Events and state *)

(** A micro-step is named by its epoch and its step inside the epoch. *)
Definition MicroStep : Type := (Z * Z)%type.

(** The parameters are what the calls of [scaler.step] made of them: a
    snapshot is the list of the calls so far, each with the micro-steps whose
    gradients it was handed.  (Which of them the scaler turned into an
    update of the optimizer is the framework's.) *)
Definition Snapshot : Type := list (list MicroStep).

(** The arguments of the progress line's [format]. *)
Record LogLine : Type := {
  ll_epoch : Z;
  ll_epochs : Z;
  ll_step : Z;
  ll_iters : Z;
  ll_loss : option R;
  ll_lr : R;
  ll_eta : R
}.

Inductive Content : Type :=
| ParamCountLine (millions : R)
| ProgressLine (l : LogLine).

Inductive Event : Type :=
| EvForward (ms : MicroStep)
| EvBackward (ms : MicroStep) (loss : option R)
| EvUnscale
| EvClipGradNorm (max_norm : R)
| EvScalerStep
| EvScalerUpdate
| EvZeroGrad
| EvPrint (c : Content)
| EvWandbLog (loss : option R) (lr : R) (eta : R)
| EvEval
| EvSave (path : string) (snap : Snapshot)
| EvTrain.

Record TrainState : Type := {
  args : Args;
  param_groups : list R;          (* the ['lr'] entry of each group *)
  grads : list MicroStep;         (* whose gradients [.grad] holds *)
  updates : Snapshot;             (* calls of scaler.step, with what each was handed *)
  training : bool;                (* model.training *)
  disk : gmap string Snapshot;    (* files written by torch.save *)
  clock_reads : nat;              (* calls of time.time() so far *)
  trace : list Event
}.

(** ** The state-and-exception monad of the driver *)

Definition M (A : Type) : Type := TrainState -> result A * TrainState.

Definition ret {A : Type} (a : A) : M A := fun s => (Ok a, s).

Definition bind {A B : Type} (c : M A) (k : A -> M B) : M B :=
  fun s =>
    match c s with
    | (Ok a, s') => k a s'
    | (Raise e, s') => (Raise e, s')
    end.

Notation "x <- c ;; k" := (bind c (fun x => k))
  (at level 100, c at next level, right associativity).
Notation "c ;; k" := (bind c (fun _ => k))
  (at level 100, right associativity).

Definition lift {A : Type} (r : result A) : M A := fun s => (r, s).

Definition when (b : bool) (c : M unit) : M unit := if b then c else ret tt.

(** Reading an attribute of [args]. *)
Definition arg {A : Type} (field : Args -> A) : M A := fun s => (Ok (field (args s)), s).

(** The namespace [args] itself. *)
Definition get_args : M Args := fun s => (Ok (args s), s).

Definition emit (e : Event) : M unit :=
  fun s => (Ok tt,
            {| args := args s; param_groups := param_groups s; grads := grads s;
               updates := updates s; training := training s; disk := disk s;
               clock_reads := clock_reads s; trace := trace s ++ [e] |}).

(** [for i, x in enumerate(l)], counting from [i]. *)
Fixpoint for_each {A : Type} (body : Z -> A -> M unit) (i : Z) (l : list A) : M unit :=
  match l with
  | [] => ret tt
  | x :: rest => body i x ;; for_each body (i + 1) rest
  end.

(** [range(n)] *)
Definition range (n : Z) : list Z := map Z.of_nat (seq 0 (Z.to_nat n)).

(** [a % b] on ints. *)
Definition pymod (a b : Z) : result Z :=
  if b =? 0 then Raise ZeroDivisionError else Ok (a mod b).

(** [x // 60] on floats. *)
Definition floordiv60 (x : R) : R := IZR (Int_part (x / 60)).

(** ** The framework calls, as state transformers *)

Module Torch.

(** [for param_group in optimizer.param_groups: param_group['lr'] = lr] *)
Definition set_lr (lr : R) : M unit :=
  fun s => (Ok tt,
            {| args := args s; param_groups := map (fun _ => lr) (param_groups s);
               grads := grads s; updates := updates s; training := training s;
               disk := disk s; clock_reads := clock_reads s; trace := trace s |}).

(** [optimizer.param_groups[-1]['lr']] *)
Definition last_lr : M R :=
  fun s => match last (param_groups s) with
           | Some lr => (Ok lr, s)
           | None => (Raise IndexError, s)
           end.

(** [scaler.scale(loss).backward()]: the gradients of this micro-step are
    added to what [.grad] already holds. *)
Definition backward (ms : MicroStep) (loss : option R) : M unit :=
  fun s => (Ok tt,
            {| args := args s; param_groups := param_groups s;
               grads := grads s ++ [ms]; updates := updates s;
               training := training s; disk := disk s;
               clock_reads := clock_reads s;
               trace := trace s ++ [EvBackward ms loss] |}).

(** [scaler.step(optimizer)]: one update from the gradients accumulated
    so far.  (Whether the scaler skips the inner update on an overflow is
    the framework's business; the call is what is recorded.) *)
Definition scaler_step : M unit :=
  fun s => (Ok tt,
            {| args := args s; param_groups := param_groups s;
               grads := grads s; updates := updates s ++ [grads s];
               training := training s; disk := disk s;
               clock_reads := clock_reads s;
               trace := trace s ++ [EvScalerStep] |}).

(** [optimizer.zero_grad(set_to_none=True)] *)
Definition zero_grad : M unit :=
  fun s => (Ok tt,
            {| args := args s; param_groups := param_groups s;
               grads := []; updates := updates s;
               training := training s; disk := disk s;
               clock_reads := clock_reads s;
               trace := trace s ++ [EvZeroGrad] |}).

(** [model.eval()] and [model.train()] *)
Definition set_training (b : bool) : M unit :=
  fun s => (Ok tt,
            {| args := args s; param_groups := param_groups s;
               grads := grads s; updates := updates s;
               training := b; disk := disk s;
               clock_reads := clock_reads s;
               trace := trace s ++ [if b then EvTrain else EvEval] |}).

(** [model.state_dict()] and, through the data-parallel wrapper,
    [model.module.state_dict()]: the same parameters. *)
Definition state_dict : M Snapshot := fun s => (Ok (updates s), s).
Definition module_state_dict : M Snapshot := fun s => (Ok (updates s), s).

(** [torch.save(state_dict, ckp)]: the file at [ckp] is replaced. *)
Definition save (snap : Snapshot) (ckp : string) : M unit :=
  fun s => (Ok tt,
            {| args := args s; param_groups := param_groups s;
               grads := grads s; updates := updates s;
               training := training s; disk := <[ckp := snap]> (disk s);
               clock_reads := clock_reads s;
               trace := trace s ++ [EvSave ckp snap] |}).

(** [time.time()] *)
Definition time `{Framework} : M R :=
  fun s => (Ok (wall_clock (clock_reads s)),
            {| args := args s; param_groups := param_groups s;
               grads := grads s; updates := updates s;
               training := training s; disk := disk s;
               clock_reads := S (clock_reads s); trace := trace s |}).

End Torch.

(** ** The script *)

(** [not ddp or dist.get_rank() == 0] *)
Definition designated (g : Globals) : bool := negb (ddp g) || (rank g =? 0).

(** [Logger(content)] *)
Definition Logger (g : Globals) (content : Content) : M unit :=
  when (designated g) (emit (EvPrint content)).

(** [str(n)] for an int. *)
Definition str_int (n : Z) : string := NilZero.string_of_int (Z.to_int n).

(** [moe_path] and [ckp] of lines 121-122. *)
Definition moe_path (c : LMConfig) : string := if use_moe c then "_moe" else "".

Definition ckp_path (dir : string) (c : LMConfig) : string :=
  dir +:+ "/pretrain_" +:+ str_int (dim c) +:+ moe_path c +:+ ".pth".

Section Script.
Context {FW : Framework}.

(** The attribute [args.save_dir], assigned by the main block. *)
Definition arg_save_dir : M string :=
  fun s => match save_dir (args s) with
           | Some d => (Ok d, s)
           | None => (Raise AttributeError, s)
           end.

(** Lines 93-100: the accumulation boundary. *)
Definition boundary (step : Z) : M unit :=
  acc <- arg accumulation_steps ;;
  m <- lift (pymod (step + 1) acc) ;;
  when (m =? 0)
    (emit EvUnscale ;;
     clip <- arg grad_clip ;;
     emit (EvClipGradNorm clip) ;;
     Torch.scaler_step ;;
     emit EvScalerUpdate ;;
     Torch.zero_grad).

(** The arguments of the [format] of lines 105-112, for the elapsed time
    [spend_time] and the rate [lr] read from the last parameter group. *)
Definition progress_line (g : Globals) (a : Args) (epoch step : Z)
    (loss : option R) (lr spend_time : R) : LogLine :=
  {| ll_epoch := epoch + 1;
     ll_epochs := epochs a;
     ll_step := step;
     ll_iters := iter_per_epoch g;
     ll_loss := option_map (fun l => (l * IZR (accumulation_steps a))%R) loss;
     ll_lr := lr;
     ll_eta := (floordiv60 (spend_time / IZR (step + 1) * IZR (iter_per_epoch g))
                - floordiv60 spend_time)%R |}.

(** Lines 102-117: the progress line. *)
Definition report (g : Globals) (wandb : bool) (start_time : R)
    (epoch step : Z) (loss : option R) : M unit :=
  li <- arg log_interval ;;
  m <- lift (pymod step li) ;;
  when (m =? 0)
    (now <- Torch.time ;;
     let spend_time := (now - start_time)%R in
     a <- get_args ;;
     lr <- Torch.last_lr ;;
     let line := progress_line g a epoch step loss lr spend_time in
     Logger g (ProgressLine line) ;;
     when (wandb && designated g)
       (emit (EvWandbLog (ll_loss line) (ll_lr line) (ll_eta line)))).

(** Lines 119-130: the checkpoint. *)
Definition checkpoint (g : Globals) (step : Z) : M unit :=
  si <- arg save_interval ;;
  m <- lift (pymod (step + 1) si) ;;
  when ((m =? 0) && designated g)
    (Torch.set_training false ;;
     dir <- arg_save_dir ;;
     let ckp := ckp_path dir (lm_config g) in
     state <- (if ddp g then Torch.module_state_dict else Torch.state_dict) ;;
     Torch.save state ckp ;;
     Torch.set_training true).

(** The body of the loop of [train_epoch], lines 42-130. *)
Definition micro_step (g : Globals) (wandb : bool) (start_time : R)
    (epoch step : Z) (b : Batch) : M unit :=
  n_epochs <- arg epochs ;;
  base <- arg learning_rate ;;
  lr <- lift (Schedule.get_lr (epoch * iter_per_epoch g + step)
                              (n_epochs * iter_per_epoch g) base) ;;
  Torch.set_lr lr ;;
  emit (EvForward (epoch, step)) ;;
  acc <- arg accumulation_steps ;;
  loss <- lift (Loss.batch_loss b acc) ;;
  Torch.backward (epoch, step) loss ;;
  boundary step ;;
  report g wandb start_time epoch step loss ;;
  checkpoint g step.

Definition train_epoch (g : Globals) (epoch : Z) (wandb : bool) : M unit :=
  start_time <- Torch.time ;;
  for_each (micro_step g wandb start_time epoch) 0 (train_loader g).

(** [init_distributed_mode], for a distributed run: the three variables
    of the launcher must be there; the device becomes the local one. *)
Definition init_distributed_mode (env : Environ) : result (Z * string) :=
  match env_RANK env, env_LOCAL_RANK env, env_WORLD_SIZE env with
  | Some _, Some local, Some _ => Ok (local, "cuda:" +:+ str_int local)
  | _, _, _ => Raise KeyError
  end.

Definition set_args (a : Args) : M unit :=
  fun s => (Ok tt,
            {| args := a; param_groups := param_groups s; grads := grads s;
               updates := updates s; training := training s; disk := disk s;
               clock_reads := clock_reads s; trace := trace s |}).

Definition with_save_dir (a : Args) (d : string) : Args :=
  {| out_dir := out_dir a; epochs := epochs a; batch_size := batch_size a;
     learning_rate := learning_rate a; device := device a; dtype := dtype a;
     use_wandb := use_wandb a; wandb_project := wandb_project a;
     num_workers := num_workers a; arg_ddp := arg_ddp a;
     accumulation_steps := accumulation_steps a; grad_clip := grad_clip a;
     warmup_iters := warmup_iters a; log_interval := log_interval a;
     save_interval := save_interval a; local_rank := local_rank a;
     arg_dim := arg_dim a; n_layers := n_layers a; max_seq_len := max_seq_len a;
     arg_use_moe := arg_use_moe a; data_path := data_path a;
     save_dir := Some d; wandb_run_name := wandb_run_name a |}.

Definition with_wandb_run_name (a : Args) (n : string) : Args :=
  {| out_dir := out_dir a; epochs := epochs a; batch_size := batch_size a;
     learning_rate := learning_rate a; device := device a; dtype := dtype a;
     use_wandb := use_wandb a; wandb_project := wandb_project a;
     num_workers := num_workers a; arg_ddp := arg_ddp a;
     accumulation_steps := accumulation_steps a; grad_clip := grad_clip a;
     warmup_iters := warmup_iters a; log_interval := log_interval a;
     save_interval := save_interval a; local_rank := local_rank a;
     arg_dim := arg_dim a; n_layers := n_layers a; max_seq_len := max_seq_len a;
     arg_use_moe := arg_use_moe a; data_path := data_path a;
     save_dir := save_dir a; wandb_run_name := Some n |}.

Definition with_device (a : Args) (d : string) : Args :=
  {| out_dir := out_dir a; epochs := epochs a; batch_size := batch_size a;
     learning_rate := learning_rate a; device := d; dtype := dtype a;
     use_wandb := use_wandb a; wandb_project := wandb_project a;
     num_workers := num_workers a; arg_ddp := arg_ddp a;
     accumulation_steps := accumulation_steps a; grad_clip := grad_clip a;
     warmup_iters := warmup_iters a; log_interval := log_interval a;
     save_interval := save_interval a; local_rank := local_rank a;
     arg_dim := arg_dim a; n_layers := n_layers a; max_seq_len := max_seq_len a;
     arg_use_moe := arg_use_moe a; data_path := data_path a;
     save_dir := save_dir a; wandb_run_name := wandb_run_name a |}.

(** The f-string of line 202. *)
Definition run_name (a : Args) : string :=
  "MiniMind-Pretrain-Epoch-" +:+ str_int (epochs a)
    +:+ "-BatchSize-" +:+ str_int (batch_size a)
    +:+ "-LearningRate-" +:+ float_repr (learning_rate a).

(** [int(os.environ.get("RANK", -1)) != -1] *)
Definition is_ddp (env : Environ) : bool :=
  negb (default (-1) (env_RANK env) =? -1).

(** The assignments to [args] of the main block (lines 180, 202, 232), in
    their order; the result is the namespace the training loop sees, with
    the local rank of the process. *)
Definition configure (env : Environ) : M Z :=
  a <- get_args ;;
  set_args (with_save_dir a (out_dir a)) ;;
  a <- get_args ;;
  set_args (with_wandb_run_name a (run_name a)) ;;
  if is_ddp env then
    r <- lift (init_distributed_mode env) ;;
    a <- get_args ;;
    set_args (with_device a (snd r)) ;;
    ret (fst r)
  else ret 0.

Definition make_globals (env : Environ) (a : Args) (loader : list Batch) : Globals :=
  {| ddp := is_ddp env;
     rank := default 0 (env_RANK env);
     lm_config := {| dim := arg_dim a; cfg_n_layers := n_layers a;
                     cfg_max_seq_len := max_seq_len a; use_moe := arg_use_moe a |};
     train_loader := loader;
     iter_per_epoch := Z.of_nat (List.length loader) |}.

(** The main block, from [parse_args] on: [a] is the parsed command line,
    [loader] the batches of [train_loader]. *)
Definition main (env : Environ) (loader : list Batch) : M unit :=
  a0 <- get_args ;;
  ddp_local_rank <- configure env ;;
  let g := make_globals env a0 loader in
  let wandb := use_wandb a0 && (negb (ddp g) || (ddp_local_rank =? 0)) in
  Logger g (ParamCountLine (param_count / 1000000)%R) ;;
  n_epochs <- arg epochs ;;
  for_each (fun _ epoch => train_epoch g epoch wandb) 0 (range n_epochs).

(** The state the main block starts from: the parsed arguments, a fresh
    model in training mode, one parameter group at the base rate (set by
    [optim.AdamW(model.parameters(), lr=args.learning_rate)]), no
    gradients, and the files already on disk. *)
Definition initial_state (a : Args) (files : gmap string Snapshot) : TrainState :=
  {| args := a; param_groups := [learning_rate a]; grads := []; updates := [];
     training := true; disk := files; clock_reads := 0%nat; trace := [] |}.

End Script.

(** ** What a block leaves when it does not raise *)

Section Summary.
Context {FW : Framework}.

(** The five calls of the accumulation boundary. *)
Definition boundary_events (a : Args) : list Event :=
  [EvUnscale; EvClipGradNorm (grad_clip a); EvScalerStep; EvScalerUpdate; EvZeroGrad].

Definition boundary_state (step : Z) (s : TrainState) : TrainState :=
  if (step + 1) mod accumulation_steps (args s) =? 0 then
    {| args := args s; param_groups := param_groups s; grads := [];
       updates := updates s ++ [grads s]; training := training s; disk := disk s;
       clock_reads := clock_reads s;
       trace := trace s ++ boundary_events (args s) |}
  else s.

(** What the progress report prints and logs. *)
Definition report_events (g : Globals) (wandb : bool) (line : LogLine) : list Event :=
  (if designated g then [EvPrint (ProgressLine line)] else [])
  ++ (if wandb && designated g
      then [EvWandbLog (ll_loss line) (ll_lr line) (ll_eta line)] else []).

Definition report_line (g : Globals) (start_time : R) (epoch step : Z)
    (loss : option R) (s : TrainState) : LogLine :=
  progress_line g (args s) epoch step loss
    (default 0%R (last (param_groups s)))
    (wall_clock (clock_reads s) - start_time)%R.

Definition report_state (g : Globals) (wandb : bool) (start_time : R)
    (epoch step : Z) (loss : option R) (s : TrainState) : TrainState :=
  if step mod log_interval (args s) =? 0 then
    {| args := args s; param_groups := param_groups s; grads := grads s;
       updates := updates s; training := training s; disk := disk s;
       clock_reads := S (clock_reads s);
       trace := trace s
                ++ report_events g wandb (report_line g start_time epoch step loss s) |}
  else s.

(** The three calls of a checkpoint. *)
Definition checkpoint_events (ckp : string) (snap : Snapshot) : list Event :=
  [EvEval; EvSave ckp snap; EvTrain].

Definition writes_checkpoint (g : Globals) (step : Z) (a : Args) : bool :=
  ((step + 1) mod save_interval a =? 0) && designated g.

Definition checkpoint_state (g : Globals) (step : Z) (s : TrainState) : TrainState :=
  if writes_checkpoint g step (args s) then
    let ckp := ckp_path (default "" (save_dir (args s))) (lm_config g) in
    {| args := args s; param_groups := param_groups s; grads := grads s;
       updates := updates s; training := true;
       disk := <[ckp := updates s]> (disk s);
       clock_reads := clock_reads s;
       trace := trace s ++ checkpoint_events ckp (updates s) |}
  else s.

(** Lines 60-83: the rate is set, the loss computed and backpropagated. *)
Definition backward_state (ms : MicroStep) (lr : R) (loss : option R)
    (s : TrainState) : TrainState :=
  {| args := args s; param_groups := map (fun _ => lr) (param_groups s);
     grads := grads s ++ [ms]; updates := updates s; training := training s;
     disk := disk s; clock_reads := clock_reads s;
     trace := trace s ++ [EvForward ms; EvBackward ms loss] |}.

Definition micro_state (g : Globals) (wandb : bool) (start_time : R)
    (epoch step : Z) (lr : R) (loss : option R) (s : TrainState) : TrainState :=
  checkpoint_state g step
    (report_state g wandb start_time epoch step loss
       (boundary_state step (backward_state (epoch, step) lr loss s))).

(** The events of a micro-step that does not raise, in their order. *)
Definition micro_events (g : Globals) (wandb : bool) (start_time : R)
    (epoch step : Z) (lr : R) (loss : option R) (s : TrainState) : list Event :=
  let s2 := boundary_state step (backward_state (epoch, step) lr loss s) in
  [EvForward (epoch, step); EvBackward (epoch, step) loss]
  ++ (if (step + 1) mod accumulation_steps (args s) =? 0
      then boundary_events (args s) else [])
  ++ (if step mod log_interval (args s) =? 0
      then report_events g wandb (report_line g start_time epoch step loss s2) else [])
  ++ (if writes_checkpoint g step (args s)
      then checkpoint_events (ckp_path (default "" (save_dir (args s))) (lm_config g))
             (updates s2)
      else []).

(** The calls that read or write the gradients. *)
Definition touches_gradients (e : Event) : bool :=
  match e with
  | EvForward _ | EvBackward _ _ | EvUnscale | EvClipGradNorm _
  | EvScalerStep | EvScalerUpdate | EvZeroGrad => true
  | _ => false
  end.

Definition is_save (e : Event) : bool :=
  match e with EvSave _ _ => true | _ => false end.

Definition is_print (e : Event) : bool :=
  match e with EvPrint _ => true | _ => false end.

(** The rate and the loss of a micro-step that does not raise. *)
Definition lr_of (g : Globals) (epoch step : Z) (s : TrainState) : R :=
  match Schedule.get_lr (epoch * iter_per_epoch g + step)
          (epochs (args s) * iter_per_epoch g) (learning_rate (args s)) with
  | Ok lr => lr
  | Raise _ => 0%R
  end.

Definition loss_of (b : Batch) (s : TrainState) : option R :=
  match Loss.batch_loss b (accumulation_steps (args s)) with
  | Ok loss => loss
  | Raise _ => None
  end.

Definition micro_next (g : Globals) (wandb : bool) (start_time : R)
    (epoch step : Z) (b : Batch) (s : TrainState) : TrainState :=
  micro_state g wandb start_time epoch step (lr_of g epoch step s) (loss_of b s) s.

(** The loop of [train_epoch] from step [i] on, and the epoch. *)
Fixpoint steps_state (g : Globals) (wandb : bool) (start_time : R)
    (epoch i : Z) (l : list Batch) (s : TrainState) : TrainState :=
  match l with
  | [] => s
  | b :: rest =>
      steps_state g wandb start_time epoch (i + 1) rest
        (micro_next g wandb start_time epoch i b s)
  end.

Definition tick (s : TrainState) : TrainState :=
  {| args := args s; param_groups := param_groups s; grads := grads s;
     updates := updates s; training := training s; disk := disk s;
     clock_reads := S (clock_reads s); trace := trace s |}.

Definition epoch_state (g : Globals) (wandb : bool) (epoch : Z) (s : TrainState)
    : TrainState :=
  steps_state g wandb (wall_clock (clock_reads s)) epoch 0 (train_loader g) (tick s).

(** The loop over the epochs. *)
Fixpoint epochs_state (g : Globals) (wandb : bool) (es : list Z) (s : TrainState)
    : TrainState :=
  match es with
  | [] => s
  | e :: rest => epochs_state g wandb rest (epoch_state g wandb e s)
  end.

(** The integers from [lo] up to, not including, [hi]. *)
Definition zrange (lo hi : Z) : list Z :=
  map (fun k => lo + Z.of_nat k) (seq 0 (Z.to_nat (hi - lo))).

(** The micro-steps [lo .. hi - 1] of an epoch. *)
Definition micro_steps (epoch lo hi : Z) : list MicroStep :=
  map (fun k => (epoch, k)) (zrange lo hi).

(** The characters [str] of an int is made of. *)
Definition is_num_char (c : ascii) : bool :=
  (Ascii.eqb c "-" || ((48 <=? nat_of_ascii c)%nat && (nat_of_ascii c <=? 57)%nat))%bool.

Fixpoint all_chars (p : ascii -> bool) (s : string) : bool :=
  match s with
  | EmptyString => true
  | String c rest => p c && all_chars p rest
  end.

(** The attributes of [args] that come from the command line, [device]
    apart. *)
Definition command_line (a : Args) :=
  (out_dir a, epochs a, batch_size a, learning_rate a, dtype a, use_wandb a,
   wandb_project a, num_workers a, arg_ddp a, accumulation_steps a, grad_clip a,
   warmup_iters a, log_interval a, save_interval a, local_rank a, arg_dim a,
   n_layers a, max_seq_len a, arg_use_moe a, data_path a).

(** The last checkpoint written in a trace. *)
Fixpoint last_save (tr : list Event) : option (string * Snapshot) :=
  match tr with
  | [] => None
  | e :: rest =>
      match last_save rest with
      | Some w => Some w
      | None => match e with
                | EvSave path snap => Some (path, snap)
                | _ => None
                end
      end
  end.

(** Counting the events of a kind in a trace. *)
Definition is_backward (e : Event) : bool :=
  match e with EvBackward _ _ => true | _ => false end.

Definition is_scaler_step (e : Event) : bool :=
  match e with EvScalerStep => true | _ => false end.

Definition count_events (kind : Event -> bool) (tr : list Event) : nat :=
  List.length (List.filter kind tr).

(** The events a micro-step adds to the trace. *)
Definition step_events (g : Globals) (wandb : bool) (start_time : R)
    (epoch step : Z) (b : Batch) (s : TrainState) : list Event :=
  skipn (List.length (trace s)) (trace (snd (micro_step g wandb start_time epoch step b s))).

(** The configuration lets a micro-step run to its end: no interval is
    zero, the schedule is not empty, the checkpoint directory is set and the
    optimizer has a parameter group. *)
Definition runnable (g : Globals) (s : TrainState) : Prop :=
  accumulation_steps (args s) <> 0
  /\ log_interval (args s) <> 0
  /\ save_interval (args s) <> 0
  /\ epochs (args s) * iter_per_epoch g <> 0
  /\ save_dir (args s) <> None
  /\ param_groups s <> [].

End Summary.

(** ** A small instance to run the script on *)

Module Fixture.

Fixpoint running_sum (acc : Z) (row : list Z) : list Z :=
  match row with
  | [] => []
  | x :: rest => (acc + x) :: running_sum (acc + x) rest
  end.

(** A causal model in miniature: the logit of a position is the sum of
    the tokens of its row up to that position, the loss of a position the
    distance of the logit to the target; no auxiliary loss. *)
Definition causal : Framework :=
  {| Logits := Z;
     model_forward := fun x => (map (running_sum 0) x, 0%R);
     cross_entropy := fun z y => IZR (z - y);
     wall_clock := fun n => INR n;
     param_count := 26000000%R;
     float_repr := fun _ => "0.0005" |}.

(** The defaults of the argument parser, on a machine without CUDA. *)
Definition default_args : Args :=
  {| out_dir := "out"; epochs := 1; batch_size := 32;
     learning_rate := (5 / 10000)%R; device := "cpu"; dtype := "bfloat16";
     use_wandb := false; wandb_project := "MiniMind-Pretrain";
     num_workers := 1; arg_ddp := false; accumulation_steps := 8;
     grad_clip := 1%R; warmup_iters := 0; log_interval := 100;
     save_interval := 100; local_rank := -1; arg_dim := 512; n_layers := 8;
     max_seq_len := 512; arg_use_moe := false;
     data_path := "./dataset/pretrain_hq.jsonl";
     save_dir := None; wandb_run_name := None |}.

(** The same with other values for [--epochs], [--accumulation_steps],
    [--log_interval] and [--save_interval]. *)
Definition args_with (n_epochs acc log_every save_every : Z) : Args :=
  {| out_dir := "out"; epochs := n_epochs; batch_size := 32;
     learning_rate := (5 / 10000)%R; device := "cpu"; dtype := "bfloat16";
     use_wandb := false; wandb_project := "MiniMind-Pretrain";
     num_workers := 1; arg_ddp := false; accumulation_steps := acc;
     grad_clip := 1%R; warmup_iters := 0; log_interval := log_every;
     save_interval := save_every; local_rank := -1; arg_dim := 512; n_layers := 8;
     max_seq_len := 512; arg_use_moe := false;
     data_path := "./dataset/pretrain_hq.jsonl";
     save_dir := None; wandb_run_name := None |}.

(** One sequence of two positions. *)
Definition batch_of (x0 x1 y0 y1 m0 m1 : Z) : Batch :=
  {| X := [[x0; x1]]; Y := [[y0; y1]]; loss_mask := [[m0; m1]] |}.

Definition full_batch : Batch := batch_of 1 5 0 0 1 1.

(** A single process, and the processes of rank 0 and 1 of a
    two-process run. *)
Definition single : Environ :=
  {| env_RANK := None; env_LOCAL_RANK := None; env_WORLD_SIZE := None |}.
Definition worker (r : Z) : Environ :=
  {| env_RANK := Some r; env_LOCAL_RANK := Some r; env_WORLD_SIZE := Some 2 |}.

(** The state in which the training loop starts: the arguments as the main
    block has configured them. *)
Definition ready (env : Environ) (a : Args) : TrainState :=
  snd (@configure causal env (initial_state a ∅)).

(** A loader of [n] batches. *)
Definition loader (n : nat) : list Batch := repeat full_batch n.

(** A single-process run of [n_epochs] epochs over [n] batches with
    [accumulation_steps = acc], both intervals at [every]: its globals and
    the state its training loop starts from. *)
Definition globals_of (n_epochs acc every : Z) (n : nat) : Globals :=
  make_globals single (args_with n_epochs acc every every) (loader n).

Definition start_of (n_epochs acc every : Z) : TrainState :=
  ready single (args_with n_epochs acc every every).

End Fixture.

(** ** Files: what a run writes *)

(** From [s] to [s'] events were added to the trace; every checkpoint among
    them went to [ckp], and the disk differs by the last of them at most. *)
Definition saves_only (ckp : string) (s s' : TrainState) : Prop :=
  exists evs : list Event,
    trace s' = trace s ++ evs
    /\ (forall (path : string) (snap : Snapshot), In (EvSave path snap) evs -> path = ckp)
    /\ disk s' = match last_save evs with
                 | Some (_, snap) => <[ckp := snap]> (disk s)
                 | None => disk s
                 end.

(** The events added to the trace between two states. *)
Definition run_events (s s' : TrainState) : list Event :=
  skipn (List.length (trace s)) (trace s').

(** ** Modes: when the model computes *)

(** The mode of the model after the events of a trace, from the mode
    before. *)
Fixpoint mode_after (training : bool) (tr : list Event) : bool :=
  match tr with
  | [] => training
  | EvEval :: rest => mode_after false rest
  | EvTrain :: rest => mode_after true rest
  | _ :: rest => mode_after training rest
  end.

(** Every forward and backward pass of the trace happens in training
    mode. *)
Fixpoint passes_in_training (training : bool) (tr : list Event) : bool :=
  match tr with
  | [] => true
  | EvEval :: rest => passes_in_training false rest
  | EvTrain :: rest => passes_in_training true rest
  | EvForward _ :: rest => training && passes_in_training training rest
  | EvBackward _ _ :: rest => training && passes_in_training training rest
  | _ :: rest => passes_in_training training rest
  end.

(** The process logs to the experiment tracker. *)
Definition is_wandb_log (e : Event) : bool :=
  match e with EvWandbLog _ _ _ => true | _ => false end.

Definition is_forward (e : Event) : bool :=
  match e with EvForward _ => true | _ => false end.

(** ** Frames: what a computation leaves as it is *)

(** [frame R c]: whatever [c] returns or raises, the state it leaves is
    related by [R] to the state it started from. *)
Definition frame {A : Type} (R : relation TrainState) (c : M A) : Prop :=
  forall s, R s (snd (c s)).

(** The two states have the same value of a field. *)
Definition same {B : Type} (field : TrainState -> B) : relation TrainState :=
  fun s s' => field s' = field s.

(** * Properties *)

(** ** The monad *)

Section FrameRules.
Context {B : Type} (field : TrainState -> B).

Lemma frame_ret {A : Type} (a : A) : frame (same field) (ret a).
Proof. intros s. reflexivity. Qed.

Lemma frame_lift {A : Type} (r : result A) : frame (same field) (lift r).
Proof. intros s. reflexivity. Qed.

Lemma frame_arg {A : Type} (f : Args -> A) : frame (same field) (arg f).
Proof. intros s. reflexivity. Qed.

Lemma frame_get_args : frame (same field) get_args.
Proof. intros s. reflexivity. Qed.

Lemma frame_bind {A C : Type} (c : M A) (k : A -> M C) :
  frame (same field) c -> (forall a, frame (same field) (k a)) ->
  frame (same field) (bind c k).
Proof.
  intros Hc Hk s. unfold bind.
  specialize (Hc s). destruct (c s) as [[a | e] s']; simpl in *.
  - specialize (Hk a s'). unfold same in *. congruence.
  - exact Hc.
Qed.

Lemma frame_when (b : bool) (c : M unit) :
  frame (same field) c -> frame (same field) (when b c).
Proof. intros Hc. destruct b; simpl; [exact Hc | apply frame_ret]. Qed.

Lemma frame_if {A : Type} (b : bool) (c1 c2 : M A) :
  frame (same field) c1 -> frame (same field) c2 ->
  frame (same field) (if b then c1 else c2).
Proof. destruct b; auto. Qed.

Lemma frame_for_each {A : Type} (body : Z -> A -> M unit) (l : list A) :
  (forall i x, frame (same field) (body i x)) ->
  forall i, frame (same field) (for_each body i l).
Proof.
  intros Hb. induction l as [| x rest IH]; intros i; simpl.
  - apply frame_ret.
  - apply frame_bind; [apply Hb | intros _; apply IH].
Qed.

End FrameRules.

(** A frame goal is split along the structure of the computation; a
    framework call that does not write the field closes by computation. *)
Ltac frame_call :=
  let s := fresh "s" in
  intros s; unfold same; cbv beta delta [Torch.last_lr arg_save_dir Torch.time]; simpl;
  repeat match goal with
         | |- context [match ?x with _ => _ end] => destruct x
         end;
  reflexivity.

Ltac frame_steps :=
  repeat first
    [ apply frame_ret | apply frame_lift | apply frame_arg | apply frame_get_args
    | apply frame_when | apply frame_if
    | apply frame_bind; [ | intros ? ]
    | frame_call ].

(** ** The learning-rate schedule *)

Section ScheduleFacts.
Import Schedule.

Lemma get_lr_ok (current_step total_steps : Z) (lr : R) :
  total_steps <> 0 ->
  get_lr current_step total_steps lr
  = Ok (lr / 10 + 5 / 10 * lr * (1 + cos (PI * IZR current_step / IZR total_steps)))%R.
Proof.
  intros Ht. unfold get_lr.
  destruct (Z.eqb_spec total_steps 0) as [E | _]; [contradiction | reflexivity].
Qed.

Lemma get_lr_between (current_step total_steps : Z) (lr v : R) :
  (0 <= lr)%R ->
  get_lr current_step total_steps lr = Ok v ->
  (lr / 10 <= v <= 11 / 10 * lr)%R.
Proof.
  intros Hlr. unfold get_lr.
  destruct (total_steps =? 0); [discriminate |].
  intros [= <-].
  pose proof (COS_bound (PI * IZR current_step / IZR total_steps)) as [Hlo Hhi].
  split; nra.
Qed.

Lemma get_lr_start (total_steps : Z) (lr : R) :
  total_steps <> 0 ->
  get_lr 0 total_steps lr = Ok (11 / 10 * lr)%R.
Proof.
  intros Ht. rewrite get_lr_ok by exact Ht. f_equal.
  replace (PI * 0 / IZR total_steps)%R with 0%R
    by (unfold Rdiv; rewrite Rmult_0_r, Rmult_0_l; reflexivity).
  rewrite cos_0. lra.
Qed.

End ScheduleFacts.

(** ** What the training loop leaves alone *)

Section LoopFrames.
Context {FW : Framework}.

Lemma micro_step_keeps_args (g : Globals) (wandb : bool) (t0 : R) (epoch step : Z)
    (b : Batch) :
  frame (same args) (micro_step g wandb t0 epoch step b).
Proof. unfold micro_step, boundary, report, checkpoint, Logger. frame_steps. Qed.

Lemma train_epoch_keeps_args (g : Globals) (epoch : Z) (wandb : bool) :
  frame (same args) (train_epoch g epoch wandb).
Proof.
  unfold train_epoch. apply frame_bind; [frame_call | intros t0].
  apply frame_for_each. intros i x. apply micro_step_keeps_args.
Qed.

End LoopFrames.

(** ** C2: the learning rate of a micro-step *)

Section LearningRate.
Context {FW : Framework}.

Lemma micro_step_sets_lr (g : Globals) (wandb : bool) (t0 : R) (epoch step : Z)
    (b : Batch) (s : TrainState) (v : R) :
  Schedule.get_lr (epoch * iter_per_epoch g + step) (epochs (args s) * iter_per_epoch g)
    (learning_rate (args s)) = Ok v ->
  param_groups (snd (micro_step g wandb t0 epoch step b s))
  = map (fun _ => v) (param_groups s).
Proof.
  intros Hv. unfold micro_step.
  unfold bind at 1. unfold arg at 1. cbv beta iota.
  unfold bind at 1. unfold arg at 1. cbv beta iota.
  unfold bind at 1. unfold lift at 1. rewrite Hv.
  unfold bind at 1. unfold Torch.set_lr at 1. cbv beta iota.
  match goal with
  | |- param_groups (snd (?rest ?s1)) = _ =>
      assert (Hrest : frame (same param_groups) rest)
  end.
  { unfold boundary, report, checkpoint, Logger. frame_steps. }
  rewrite Hrest. reflexivity.
Qed.

(** C2, as amended: for a non-empty schedule and a positive base rate, the
    learning rate of a micro-step is defined, lies between [base_lr / 10]
    and [11/10 * base_lr], is the rate of every parameter group once the
    micro-step has run, and is [11/10 * base_lr] at step 0. *)
Theorem lr_within_tenth_and_eleven_tenths (g : Globals) (wandb : bool) (t0 : R)
    (epoch step : Z) (b : Batch) (s : TrainState) :
  epochs (args s) * iter_per_epoch g <> 0 ->
  (0 < learning_rate (args s))%R ->
  exists v : R,
    Schedule.get_lr (epoch * iter_per_epoch g + step)
      (epochs (args s) * iter_per_epoch g) (learning_rate (args s)) = Ok v
    /\ (learning_rate (args s) / 10 <= v <= 11 / 10 * learning_rate (args s))%R
    /\ Forall (eq v) (param_groups (snd (micro_step g wandb t0 epoch step b s)))
    /\ Schedule.get_lr 0 (epochs (args s) * iter_per_epoch g) (learning_rate (args s))
       = Ok (11 / 10 * learning_rate (args s))%R.
Proof.
  intros Htotal Hbase.
  eexists. split; [apply get_lr_ok; exact Htotal |].
  split; [eapply get_lr_between; [lra | apply get_lr_ok; exact Htotal] |].
  split; [| apply get_lr_start; exact Htotal].
  erewrite micro_step_sets_lr by (apply get_lr_ok; exact Htotal).
  induction (param_groups s) as [| x l IH]; simpl; constructor; auto.
Qed.

End LearningRate.

(** C2 as stated fails at step 0: with the default base rate [5e-4] the
    rate written is [5.5e-4], above the base rate and not equal to it. *)
Lemma lr_at_step_0_exceeds_base :
  exists v : R,
    Schedule.get_lr 0 100 (5 / 10000) = Ok v
    /\ ~ (5 / 10000 / 10 <= v <= 5 / 10000)%R
    /\ v <> (5 / 10000)%R.
Proof.
  exists (11 / 10 * (5 / 10000))%R.
  split; [apply get_lr_start; lia |].
  split; [intros [_ H]; lra | lra].
Qed.

(** ** The batch loss *)

Section LossFacts.
Import Loss.
Context {FW : Framework}.

Lemma fdiv_none (x y : R) : fdiv x y = None <-> y = 0%R.
Proof. unfold fdiv. destruct (Req_dec_T y 0); split; intros; congruence. Qed.

Lemma fdiv_some (x y : R) : y <> 0%R -> fdiv x y = Some (x / y)%R.
Proof. intros Hy. unfold fdiv. destruct (Req_dec_T y 0); [contradiction | reflexivity]. Qed.

Lemma same_shape_true {A B : Type} (a : Tensor A) (b : Tensor B) :
  same_shape a b = true <-> shape a = shape b.
Proof. unfold same_shape. apply bool_decide_eq_true. Qed.

Lemma length_ce_each (zs : list Logits) (ys : list Z) :
  List.length zs = List.length ys -> List.length (ce_each zs ys) = List.length ys.
Proof.
  revert ys. induction zs as [| z zs IH]; intros [| y ys]; simpl; intros H; try lia.
  rewrite IH; lia.
Qed.

Lemma ce_each_app (zs zs' : list Logits) (ys ys' : list Z) :
  List.length zs = List.length ys ->
  ce_each (zs ++ zs') (ys ++ ys') = ce_each zs ys ++ ce_each zs' ys'.
Proof.
  revert ys. induction zs as [| z zs IH]; intros [| y ys]; simpl; intros H; try lia.
  - reflexivity.
  - rewrite IH by lia. reflexivity.
Qed.

Lemma length_concat_shape {A : Type} (t : Tensor A) :
  List.length (concat t) = fold_right Nat.add 0%nat (shape t).
Proof.
  induction t as [| r t IH]; simpl; [reflexivity |].
  rewrite length_app, IH. reflexivity.
Qed.

Lemma shape_view_as {A : Type} (sizes : list nat) (flat : list A) :
  (fold_right Nat.add 0 sizes <= List.length flat)%nat ->
  shape (view_as flat sizes) = sizes.
Proof.
  revert flat. induction sizes as [| n sizes IH]; intros flat H; simpl in *.
  - reflexivity.
  - rewrite length_firstn, Nat.min_l by lia. f_equal.
    apply IH. rewrite length_skipn. lia.
Qed.

(** With logits in the shape of the targets, flattening, taking the loss
    and reshaping is taking the loss row by row. *)
Lemma view_as_ce_rows (logits : Tensor Logits) (targets : Tensor Z) :
  shape logits = shape targets ->
  view_as (ce_each (view_flat logits) (view_flat targets)) (shape targets)
  = ce_rows logits targets.
Proof.
  unfold view_flat. revert targets.
  induction logits as [| l logits IH]; intros [| y targets]; simpl; intros H;
    try discriminate; [reflexivity |].
  injection H as Hl Hrest.
  rewrite ce_each_app by exact Hl.
  assert (Hlen : List.length (ce_each l y) = List.length y)
    by (apply length_ce_each; exact Hl).
  rewrite <- Hlen at 1 2.
  rewrite firstn_app, Nat.sub_diag, firstn_all, firstn_O, app_nil_r.
  rewrite skipn_app, Nat.sub_diag, skipn_all, skipn_O. simpl.
  rewrite IH by exact Hrest. reflexivity.
Qed.

Lemma shape_ce_rows (logits : Tensor Logits) (targets : Tensor Z) :
  shape logits = shape targets -> shape (ce_rows logits targets) = shape targets.
Proof.
  revert targets.
  induction logits as [| l logits IH]; intros [| y targets]; simpl; intros H;
    try discriminate; [reflexivity |].
  injection H as Hl Hrest.
  rewrite length_ce_each by exact Hl. rewrite IH by exact Hrest. reflexivity.
Qed.

(** What a well-shaped batch computes. *)
Lemma token_losses_ok (b : Batch) :
  well_shaped b = true ->
  exists loss : Tensor R,
    token_losses b = Ok (loss, snd (model_forward (X b)))
    /\ shape loss = shape (loss_mask b).
Proof.
  unfold well_shaped, token_losses, loss_fct. intros H.
  apply andb_true_iff in H as [Hlen Hshape].
  apply same_shape_true in Hshape.
  destruct (model_forward (X b)) as [logits aux]. simpl in *.
  rewrite Hlen. eexists. split; [reflexivity |].
  rewrite <- Hshape. apply shape_view_as.
  apply Nat.eqb_eq in Hlen.
  rewrite <- length_concat_shape.
  rewrite length_ce_each by exact Hlen. unfold view_flat. lia.
Qed.

Lemma masked_mean_ok (loss : Tensor R) (mask : Tensor Z) :
  shape loss = shape mask ->
  masked_mean loss mask
  = Ok (fdiv (tsum (mul_rows loss mask)) (IZR (tsum_mask mask))).
Proof.
  intros H. unfold masked_mean, tmul.
  apply same_shape_true in H. rewrite H. reflexivity.
Qed.

End LossFacts.

(** ** C4: positions the mask excludes *)

Section MaskedPositions.
Import Loss.
Context {FW : Framework}.

Lemma agree_on_valid_cons {A : Type} (k : list Z) (mask : Tensor Z)
    (r r' : list A) (t t' : Tensor A) :
  agree_on_valid (k :: mask) (r :: t) (r' :: t') ->
  (List.length r = List.length r'
   /\ forall (j : nat) (m : Z), k !! j = Some m -> m <> 0 -> r !! j = r' !! j)
  /\ agree_on_valid mask t t'.
Proof.
  intros [Hshape Hval]. simpl in Hshape. injection Hshape as Hlen Hrest.
  split; [split; [exact Hlen |] | split; [exact Hrest |]].
  - intros j m Hj Hm. exact (Hval 0%nat j k m eq_refl Hj Hm).
  - intros i j row m Hi Hj Hm. exact (Hval (S i) j row m Hi Hj Hm).
Qed.

Lemma mul_row_agree (k : list Z) :
  forall (l l' : list Logits) (y y' : list Z),
    List.length l = List.length l' -> List.length y = List.length y' ->
    (forall (j : nat) (m : Z), k !! j = Some m -> m <> 0 -> l !! j = l' !! j) ->
    (forall (j : nat) (m : Z), k !! j = Some m -> m <> 0 -> y !! j = y' !! j) ->
    mul_row (ce_each l y) k = mul_row (ce_each l' y') k.
Proof.
  induction k as [| m k IH]; intros l l' y y' Hl Hy Hls Hys.
  - destruct (ce_each l y), (ce_each l' y'); reflexivity.
  - destruct l as [| z l], l' as [| z' l']; try discriminate; [reflexivity |].
    destruct y as [| t y], y' as [| t' y']; try discriminate; [reflexivity |].
    simpl. f_equal.
    + destruct (Z.eq_dec m 0) as [-> | Hm].
      * rewrite !Rmult_0_r. reflexivity.
      * specialize (Hls 0%nat m eq_refl Hm). specialize (Hys 0%nat m eq_refl Hm).
        simpl in Hls, Hys. congruence.
    + apply IH.
      * simpl in Hl. lia.
      * simpl in Hy. lia.
      * intros j m' Hj Hm'. exact (Hls (S j) m' Hj Hm').
      * intros j m' Hj Hm'. exact (Hys (S j) m' Hj Hm').
Qed.

Lemma mul_rows_agree (mask : Tensor Z) :
  forall (logits logits' : Tensor Logits) (targets targets' : Tensor Z),
    agree_on_valid mask logits logits' ->
    agree_on_valid mask targets targets' ->
    mul_rows (ce_rows logits targets) mask = mul_rows (ce_rows logits' targets') mask.
Proof.
  induction mask as [| k mask IH]; intros L L' T T' HL HT.
  - destruct (ce_rows L T), (ce_rows L' T'); reflexivity.
  - destruct L as [| l L], L' as [| l' L'];
      try (destruct HL as [HL _]; discriminate); [reflexivity |].
    destruct T as [| y T], T' as [| y' T'];
      try (destruct HT as [HT _]; discriminate); [reflexivity |].
    apply agree_on_valid_cons in HL as [[Hl Hls] HL].
    apply agree_on_valid_cons in HT as [[Hy Hys] HT].
    simpl. f_equal.
    + apply mul_row_agree; assumption.
    + apply IH; assumption.
Qed.

Lemma token_losses_rows (b : Batch) :
  shape (fst (model_forward (X b))) = shape (Y b) ->
  token_losses b
  = Ok (ce_rows (fst (model_forward (X b))) (Y b), snd (model_forward (X b))).
Proof.
  intros Hshape. unfold token_losses, loss_fct.
  destruct (model_forward (X b)) as [logits aux]. simpl in *.
  unfold view_flat at 1 2. rewrite !length_concat_shape, Hshape, Nat.eqb_refl.
  rewrite view_as_ce_rows by exact Hshape. reflexivity.
Qed.

Lemma batch_loss_agree (b b' : Batch) (accumulation_steps : Z) :
  differ_only_masked b b' ->
  shape (fst (model_forward (X b))) = shape (Y b) ->
  agree_on_valid (loss_mask b) (fst (model_forward (X b))) (fst (model_forward (X b'))) ->
  snd (model_forward (X b)) = snd (model_forward (X b')) ->
  batch_loss b accumulation_steps = batch_loss b' accumulation_steps.
Proof.
  intros (Hmask & HX & HY) Hshape Hlogits Haux.
  assert (Hshape' : shape (fst (model_forward (X b'))) = shape (Y b')).
  { destruct Hlogits as [<- _]. destruct HY as [<- _]. exact Hshape. }
  unfold batch_loss.
  rewrite (token_losses_rows b Hshape), (token_losses_rows b' Hshape').
  rewrite <- Haux, <- Hmask. unfold normalize, masked_mean, tmul, same_shape.
  rewrite !shape_ce_rows by assumption.
  destruct HY as [HYs HYv]. rewrite <- HYs.
  destruct (bool_decide (shape (Y b) = shape (loss_mask b))); [| reflexivity].
  rewrite (mul_rows_agree (loss_mask b) _ _ _ _ Hlogits (conj HYs HYv)).
  reflexivity.
Qed.

(** C4, as amended: two batches that differ only in positions where
    [loss_mask] is zero, and on which the model returns the same auxiliary
    loss and, at the positions where [loss_mask] is not zero, the same
    logits (one per position), have the same normalized loss. *)
Theorem loss_ignores_masked_positions (b b' : Batch) (accumulation_steps : Z) :
  differ_only_masked b b' ->
  shape (fst (model_forward (X b))) = shape (Y b) ->
  agree_on_valid (loss_mask b) (fst (model_forward (X b))) (fst (model_forward (X b'))) ->
  snd (model_forward (X b)) = snd (model_forward (X b')) ->
  batch_loss b accumulation_steps = batch_loss b' accumulation_steps.
Proof. apply batch_loss_agree. Qed.

(** In particular the targets at excluded positions never matter. *)
Corollary loss_ignores_masked_targets (b b' : Batch) (accumulation_steps : Z) :
  X b = X b' ->
  loss_mask b = loss_mask b' ->
  agree_on_valid (loss_mask b) (Y b) (Y b') ->
  shape (fst (model_forward (X b))) = shape (Y b) ->
  batch_loss b accumulation_steps = batch_loss b' accumulation_steps.
Proof.
  intros HX Hmask HY Hshape.
  apply batch_loss_agree; try assumption.
  - split; [exact Hmask | split; [| exact HY]].
    rewrite <- HX. split; [reflexivity | intros; reflexivity].
  - rewrite <- HX. split; [reflexivity | intros; reflexivity].
  - rewrite <- HX. reflexivity.
Qed.

End MaskedPositions.

(** ** C9: a batch without a valid token *)

Section EmptyMask.
Import Loss.
Context {FW : Framework}.

Lemma batch_loss_ok (b : Batch) (accumulation_steps : Z) :
  well_shaped b = true ->
  exists loss : Tensor R,
    token_losses b = Ok (loss, snd (model_forward (X b)))
    /\ shape loss = shape (loss_mask b)
    /\ batch_loss b accumulation_steps
       = Ok (match fdiv (tsum (mul_rows loss (loss_mask b)))
                    (IZR (tsum_mask (loss_mask b))) with
             | Some mean =>
                 fdiv (mean + snd (model_forward (X b))) (IZR accumulation_steps)
             | None => None
             end).
Proof.
  intros Hb. destruct (token_losses_ok b Hb) as (loss & Hloss & Hshape).
  exists loss. split; [exact Hloss | split; [exact Hshape |]].
  unfold batch_loss, normalize. rewrite Hloss, (masked_mean_ok _ _ Hshape).
  destruct (fdiv _ _); reflexivity.
Qed.

Lemma zsum_bits (l : list Z) :
  Forall (fun m => m = 0 \/ m = 1) l ->
  0 <= zsum l /\ (zsum l = 0 <-> ~ In 1 l).
Proof.
  induction 1 as [| m l Hm Hl [IHpos IHiff]]; simpl.
  - split; [lia | split; [intros _ [] | reflexivity]].
  - split; [lia |]. split.
    + intros Hsum [H1 | H1]; [lia |]. apply IHiff; [lia | exact H1].
    + intros Hnot. assert (m <> 1) by (intros ->; apply Hnot; left; reflexivity).
      assert (zsum l = 0) by (apply IHiff; intros H1; apply Hnot; right; exact H1).
      lia.
Qed.

(** C9: the loss of a well-shaped batch with a 0/1 mask is a number exactly
    when the mask has a valid token; without one the mask sums to zero, the
    masked mean is a division by zero, and the loss is no number. *)
Theorem loss_defined_iff_valid_token (b : Batch) (accumulation_steps : Z) :
  well_shaped b = true ->
  Forall (fun m => m = 0 \/ m = 1) (view_flat (loss_mask b)) ->
  accumulation_steps <> 0 ->
  (In 1 (view_flat (loss_mask b))
   <-> exists v : R, batch_loss b accumulation_steps = Ok (Some v))
  /\ (~ In 1 (view_flat (loss_mask b)) ->
      tsum_mask (loss_mask b) = 0
      /\ forall loss : Tensor R, masked_mean loss (loss_mask b) = Ok None
                                 \/ masked_mean loss (loss_mask b) = Raise ShapeError)
  /\ (~ In 1 (view_flat (loss_mask b)) -> batch_loss b accumulation_steps = Ok None).
Proof.
  intros Hb Hbits Hacc.
  destruct (zsum_bits _ Hbits) as [_ Hzero].
  destruct (batch_loss_ok b accumulation_steps Hb) as (loss & _ & _ & Hloss).
  fold (tsum_mask (loss_mask b)) in Hzero.
  assert (Hempty : ~ In 1 (view_flat (loss_mask b)) ->
                   batch_loss b accumulation_steps = Ok None).
  { intros Hnot. rewrite Hloss.
    assert (E : fdiv (tsum (mul_rows loss (loss_mask b)))
                  (IZR (tsum_mask (loss_mask b))) = None).
    { apply fdiv_none. apply Hzero in Hnot. rewrite Hnot. reflexivity. }
    rewrite E. reflexivity. }
  split; [| split; [| exact Hempty]].
  - split.
    + intros Hin. rewrite Hloss.
      assert (Hsum : IZR (tsum_mask (loss_mask b)) <> 0%R).
      { intros E. apply eq_IZR_R0 in E. apply Hzero in E. contradiction. }
      rewrite (fdiv_some _ _ Hsum), fdiv_some by (apply not_0_IZR; exact Hacc).
      eexists. reflexivity.
    + intros [v Hv].
      destruct (in_dec Z.eq_dec 1 (view_flat (loss_mask b))) as [Hin | Hnot];
        [exact Hin |].
      rewrite (Hempty Hnot) in Hv. discriminate.
  - intros Hnot. split; [apply Hzero; exact Hnot |].
    intros t. unfold masked_mean, tmul.
    destruct (same_shape t (loss_mask b)); [left | right; reflexivity].
    f_equal. apply fdiv_none. apply Hzero in Hnot. rewrite Hnot. reflexivity.
Qed.

End EmptyMask.

Section LossValue.
Import Loss.
Context {FW : Framework}.

(** The loss of a micro-step whose logits and mask come in the shape of the
    targets, with a valid token in the mask. *)
Lemma batch_loss_value (b : Batch) (accumulation_steps : Z) :
  shape (fst (model_forward (X b))) = shape (Y b) ->
  shape (Y b) = shape (loss_mask b) ->
  tsum_mask (loss_mask b) <> 0 ->
  accumulation_steps <> 0 ->
  batch_loss b accumulation_steps
  = Ok (Some ((tsum (mul_rows (ce_rows (fst (model_forward (X b))) (Y b)) (loss_mask b))
               / IZR (tsum_mask (loss_mask b))
               + snd (model_forward (X b)))
              / IZR accumulation_steps)%R).
Proof.
  intros Hlogits Hmask Hsum Hacc. unfold batch_loss.
  rewrite (token_losses_rows b Hlogits). unfold normalize.
  rewrite masked_mean_ok by (rewrite shape_ce_rows by exact Hlogits; exact Hmask).
  rewrite fdiv_some by (apply not_0_IZR; exact Hsum). simpl.
  rewrite fdiv_some by (apply not_0_IZR; exact Hacc). reflexivity.
Qed.

End LossValue.

(** C4 as stated fails: under a causal model the token at an excluded
    position feeds the logits of the valid positions after it.  The two
    batches differ in the first token only, where the mask is zero, and their
    losses are 6 and 7. *)
Lemma masked_input_changes_loss :
  Loss.differ_only_masked (Fixture.batch_of 1 5 0 0 0 1) (Fixture.batch_of 2 5 0 0 0 1)
  /\ @Loss.batch_loss Fixture.causal (Fixture.batch_of 1 5 0 0 0 1) 1
     <> @Loss.batch_loss Fixture.causal (Fixture.batch_of 2 5 0 0 0 1) 1.
Proof.
  split.
  - split; [reflexivity |].
    split; (split; [reflexivity |]);
      intros [| i] [| [| j]] row m Hi Hj Hm; simpl in *;
      try discriminate; try reflexivity.
    injection Hi as <-. injection Hj as <-. contradiction.
  - rewrite !(batch_loss_value (FW := Fixture.causal)) by (vm_compute; congruence).
    intros H. injection H as H.
    unfold Loss.tsum, Loss.tsum_mask, Loss.view_flat in H. simpl in H.
    rewrite ?minus_IZR, ?plus_IZR in H. lra.
Qed.

(** ** Running the blocks of a micro-step *)

(** Unfolding the monad and the framework calls of a block. *)
Ltac run_calls :=
  cbv beta iota zeta delta
    [bind ret lift arg get_args emit when Logger arg_save_dir
     Torch.set_lr Torch.last_lr Torch.backward Torch.scaler_step Torch.zero_grad
     Torch.set_training Torch.state_dict Torch.module_state_dict Torch.save
     Torch.time];
  simpl.

Section Runs.
Context {FW : Framework}.

Lemma pymod_ok (a b : Z) : b <> 0 -> pymod a b = Ok (a mod b).
Proof.
  intros Hb. unfold pymod.
  destruct (Z.eqb_spec b 0); [contradiction | reflexivity].
Qed.

Lemma boundary_run (step : Z) (s : TrainState) :
  accumulation_steps (args s) <> 0 ->
  boundary step s = (Ok tt, boundary_state step s).
Proof.
  intros Hacc. unfold boundary, boundary_state, bind, arg, lift.
  rewrite (pymod_ok _ _ Hacc).
  destruct ((step + 1) mod accumulation_steps (args s) =? 0); [| reflexivity].
  run_calls. unfold boundary_events. rewrite <- !app_assoc. reflexivity.
Qed.

Lemma report_run (g : Globals) (wandb : bool) (t0 : R) (epoch step : Z)
    (loss : option R) (s : TrainState) :
  log_interval (args s) <> 0 ->
  param_groups s <> [] ->
  report g wandb t0 epoch step loss s
  = (Ok tt, report_state g wandb t0 epoch step loss s).
Proof.
  intros Hli Hgroups. unfold report, report_state, bind, arg, lift.
  rewrite (pymod_ok _ _ Hli).
  destruct (step mod log_interval (args s) =? 0); [| reflexivity].
  unfold report_line, report_events.
  destruct (last (param_groups s)) as [lr |] eqn:Hlast.
  - run_calls. rewrite Hlast.
    destruct (designated g), wandb; simpl;
      rewrite <- ?app_assoc, ?app_nil_r; reflexivity.
  - apply last_None in Hlast. contradiction.
Qed.

Lemma checkpoint_run (g : Globals) (step : Z) (s : TrainState) :
  save_interval (args s) <> 0 ->
  save_dir (args s) <> None ->
  checkpoint g step s = (Ok tt, checkpoint_state g step s).
Proof.
  intros Hsi Hdir.
  unfold checkpoint, checkpoint_state, writes_checkpoint, bind, arg, lift.
  rewrite (pymod_ok _ _ Hsi).
  destruct (((step + 1) mod save_interval (args s) =? 0) && designated g);
    [| reflexivity].
  destruct (save_dir (args s)) as [d |] eqn:Hd; [| contradiction].
  unfold checkpoint_events.
  destruct (ddp g); run_calls; rewrite Hd; simpl; rewrite <- !app_assoc; reflexivity.
Qed.

Lemma micro_step_run (g : Globals) (wandb : bool) (t0 : R) (epoch step : Z)
    (b : Batch) (s : TrainState) (lr : R) (loss : option R) :
  runnable g s ->
  Schedule.get_lr (epoch * iter_per_epoch g + step) (epochs (args s) * iter_per_epoch g)
    (learning_rate (args s)) = Ok lr ->
  Loss.batch_loss b (accumulation_steps (args s)) = Ok loss ->
  micro_step g wandb t0 epoch step b s
  = (Ok tt, micro_state g wandb t0 epoch step lr loss s).
Proof.
  intros (Hacc & Hli & Hsi & _ & Hdir & Hgroups) Hlr Hloss.
  unfold micro_step, micro_state.
  unfold bind at 1. unfold arg at 1. cbv beta iota.
  unfold bind at 1. unfold arg at 1. cbv beta iota.
  unfold bind at 1. unfold lift at 1. rewrite Hlr.
  unfold bind at 1. unfold Torch.set_lr at 1. cbv beta iota.
  unfold bind at 1. unfold emit at 1. cbv beta iota.
  unfold bind at 1. unfold arg at 1. cbv beta iota. simpl args.
  unfold bind at 1. unfold lift at 1. rewrite Hloss.
  unfold bind at 1. unfold Torch.backward at 1. cbv beta iota. simpl.
  rewrite <- app_assoc. simpl.
  fold (backward_state (epoch, step) lr loss s).
  set (s1 := backward_state (epoch, step) lr loss s).
  assert (Hgroups1 : param_groups s1 <> []).
  { unfold s1. simpl. destruct (param_groups s); [contradiction | discriminate]. }
  unfold bind at 1. rewrite (boundary_run step s1 Hacc).
  set (s2 := boundary_state step s1).
  assert (Hargs2 : args s2 = args s).
  { unfold s2, boundary_state. destruct (_ =? 0); reflexivity. }
  assert (Hgroups2 : param_groups s2 = param_groups s1).
  { unfold s2, boundary_state. destruct (_ =? 0); reflexivity. }
  unfold bind at 1.
  rewrite (report_run g wandb t0 epoch step loss s2)
    by (rewrite ?Hargs2, ?Hgroups2; assumption).
  set (s3 := report_state g wandb t0 epoch step loss s2).
  assert (Hargs3 : args s3 = args s).
  { unfold s3, report_state. destruct (_ =? 0); exact Hargs2. }
  apply checkpoint_run; rewrite Hargs3; assumption.
Qed.

End Runs.

(** ** Running the loops *)

Section Loops.
Context {FW : Framework}.

Lemma micro_step_ok (g : Globals) (wandb : bool) (t0 : R) (epoch step : Z)
    (b : Batch) (s : TrainState) :
  runnable g s ->
  Loss.well_shaped b = true ->
  micro_step g wandb t0 epoch step b s = (Ok tt, micro_next g wandb t0 epoch step b s).
Proof.
  intros Hrun Hb. unfold micro_next, lr_of, loss_of.
  destruct (batch_loss_ok b (accumulation_steps (args s)) Hb) as (t & _ & _ & Hloss).
  destruct Hrun as (Hacc & Hli & Hsi & Htotal & Hdir & Hgroups).
  rewrite Hloss, (get_lr_ok _ _ _ Htotal).
  apply micro_step_run.
  - repeat split; assumption.
  - apply get_lr_ok. exact Htotal.
  - exact Hloss.
Qed.

Lemma args_boundary_state (step : Z) (s : TrainState) :
  args (boundary_state step s) = args s.
Proof. unfold boundary_state. destruct (_ =? 0); reflexivity. Qed.

Lemma args_report_state (g : Globals) (wandb : bool) (t0 : R) (epoch step : Z)
    (loss : option R) (s : TrainState) :
  args (report_state g wandb t0 epoch step loss s) = args s.
Proof. unfold report_state. destruct (_ =? 0); reflexivity. Qed.

Lemma args_checkpoint_state (g : Globals) (step : Z) (s : TrainState) :
  args (checkpoint_state g step s) = args s.
Proof. unfold checkpoint_state. destruct (writes_checkpoint _ _ _); reflexivity. Qed.

Lemma args_micro_next (g : Globals) (wandb : bool) (t0 : R) (epoch step : Z)
    (b : Batch) (s : TrainState) :
  args (micro_next g wandb t0 epoch step b s) = args s.
Proof.
  unfold micro_next, micro_state.
  rewrite args_checkpoint_state, args_report_state, args_boundary_state.
  reflexivity.
Qed.

Lemma groups_micro_next (g : Globals) (wandb : bool) (t0 : R) (epoch step : Z)
    (b : Batch) (s : TrainState) :
  param_groups (micro_next g wandb t0 epoch step b s)
  = map (fun _ => lr_of g epoch step s) (param_groups s).
Proof.
  unfold micro_next, micro_state, checkpoint_state, report_state, boundary_state.
  repeat match goal with
         | |- context [if ?c then _ else _] => destruct c
         end; reflexivity.
Qed.

Lemma runnable_micro_next (g : Globals) (wandb : bool) (t0 : R) (epoch step : Z)
    (b : Batch) (s : TrainState) :
  runnable g s -> runnable g (micro_next g wandb t0 epoch step b s).
Proof.
  unfold runnable. rewrite args_micro_next, groups_micro_next.
  intros (Hacc & Hli & Hsi & Htotal & Hdir & Hgroups).
  repeat split; try assumption.
  destruct (param_groups s); [contradiction | discriminate].
Qed.

Lemma steps_run (g : Globals) (wandb : bool) (t0 : R) (epoch : Z) (l : list Batch) :
  forallb Loss.well_shaped l = true ->
  forall (i : Z) (s : TrainState),
    runnable g s ->
    for_each (micro_step g wandb t0 epoch) i l s
    = (Ok tt, steps_state g wandb t0 epoch i l s).
Proof.
  induction l as [| b rest IH]; intros Hl i s Hrun; simpl.
  - reflexivity.
  - simpl in Hl. apply andb_true_iff in Hl as [Hb Hrest].
    unfold bind. rewrite (micro_step_ok g wandb t0 epoch i b s Hrun Hb).
    apply IH; [exact Hrest | apply runnable_micro_next; exact Hrun].
Qed.

Lemma steps_state_snoc (g : Globals) (wandb : bool) (t0 : R) (epoch : Z)
    (l : list Batch) (b : Batch) :
  forall (i : Z) (s : TrainState),
    steps_state g wandb t0 epoch i (l ++ [b]) s
    = micro_next g wandb t0 epoch (i + Z.of_nat (List.length l)) b
        (steps_state g wandb t0 epoch i l s).
Proof.
  induction l as [| x l IH]; intros i s; simpl.
  - rewrite Z.add_0_r. reflexivity.
  - rewrite IH. f_equal. lia.
Qed.

Lemma args_steps_state (g : Globals) (wandb : bool) (t0 : R) (epoch : Z)
    (l : list Batch) :
  forall (i : Z) (s : TrainState),
    args (steps_state g wandb t0 epoch i l s) = args s.
Proof.
  induction l as [| b l IH]; intros i s; simpl; [reflexivity |].
  rewrite IH. apply args_micro_next.
Qed.

Lemma runnable_steps_state (g : Globals) (wandb : bool) (t0 : R) (epoch : Z)
    (l : list Batch) :
  forall (i : Z) (s : TrainState),
    runnable g s -> runnable g (steps_state g wandb t0 epoch i l s).
Proof.
  induction l as [| b l IH]; intros i s Hrun; simpl; [exact Hrun |].
  apply IH. apply runnable_micro_next. exact Hrun.
Qed.

Lemma train_epoch_run (g : Globals) (epoch : Z) (wandb : bool) (s : TrainState) :
  forallb Loss.well_shaped (train_loader g) = true ->
  runnable g s ->
  train_epoch g epoch wandb s = (Ok tt, epoch_state g wandb epoch s).
Proof.
  intros Hl Hrun. unfold train_epoch, epoch_state, bind, Torch.time.
  apply steps_run; [exact Hl | exact Hrun].
Qed.

Lemma args_epoch_state (g : Globals) (wandb : bool) (epoch : Z) (s : TrainState) :
  args (epoch_state g wandb epoch s) = args s.
Proof. unfold epoch_state. rewrite args_steps_state. reflexivity. Qed.

Lemma runnable_epoch_state (g : Globals) (wandb : bool) (epoch : Z) (s : TrainState) :
  runnable g s -> runnable g (epoch_state g wandb epoch s).
Proof. intros Hrun. unfold epoch_state. apply runnable_steps_state. exact Hrun. Qed.

Lemma epochs_run (g : Globals) (wandb : bool) (es : list Z) :
  forallb Loss.well_shaped (train_loader g) = true ->
  forall (i : Z) (s : TrainState),
    runnable g s ->
    for_each (fun _ epoch => train_epoch g epoch wandb) i es s
    = (Ok tt, epochs_state g wandb es s).
Proof.
  intros Hl. induction es as [| e es IH]; intros i s Hrun; simpl.
  - reflexivity.
  - unfold bind. rewrite (train_epoch_run g e wandb s Hl Hrun).
    apply IH. apply runnable_epoch_state. exact Hrun.
Qed.

End Loops.

(** ** Gradient accumulation *)

Section Accumulation.
Context {FW : Framework}.

Lemma mod_succ_cases (k a : Z) :
  0 < a ->
  ((k + 1) mod a = 0 /\ k mod a = a - 1 /\ (k + 1) / a = k / a + 1)
  \/ ((k + 1) mod a = k mod a + 1 /\ (k + 1) / a = k / a /\ k mod a < a - 1).
Proof.
  intros Ha.
  pose proof (Z.div_mod k a ltac:(lia)) as Hk.
  pose proof (Z.mod_pos_bound k a Ha) as Hb.
  destruct (Z.eq_dec (k mod a) (a - 1)) as [E | NE].
  - left.
    assert (H : k + 1 = a * (k / a + 1) + 0) by lia.
    split; [| split; [exact E |]].
    + symmetry. apply (Z.mod_unique_pos (k + 1) a (k / a + 1) 0); [lia | exact H].
    + symmetry. apply (Z.div_unique_pos (k + 1) a (k / a + 1) 0); [lia | exact H].
  - right.
    assert (H : k + 1 = a * (k / a) + (k mod a + 1)) by lia.
    split; [| split; [| lia]].
    + symmetry. apply (Z.mod_unique_pos (k + 1) a (k / a) (k mod a + 1)); [lia | exact H].
    + symmetry. apply (Z.div_unique_pos (k + 1) a (k / a) (k mod a + 1)); [lia | exact H].
Qed.

Lemma zrange_nil (lo : Z) : zrange lo lo = [].
Proof. unfold zrange. rewrite Z.sub_diag. reflexivity. Qed.

Lemma zrange_snoc (lo hi : Z) : lo <= hi -> zrange lo (hi + 1) = zrange lo hi ++ [hi].
Proof.
  intros H. unfold zrange.
  replace (Z.to_nat (hi + 1 - lo)) with (S (Z.to_nat (hi - lo))) by lia.
  rewrite seq_S, map_app. simpl. do 2 f_equal. lia.
Qed.

Lemma micro_steps_nil (e lo : Z) : micro_steps e lo lo = [].
Proof. unfold micro_steps. rewrite zrange_nil. reflexivity. Qed.

Lemma micro_steps_snoc (e lo hi : Z) :
  lo <= hi -> micro_steps e lo (hi + 1) = micro_steps e lo hi ++ [(e, hi)].
Proof.
  intros H. unfold micro_steps. rewrite (zrange_snoc _ _ H), map_app. reflexivity.
Qed.

Lemma micro_steps_app (e lo mid : Z) (k : nat) :
  lo <= mid ->
  micro_steps e lo mid ++ micro_steps e mid (mid + Z.of_nat k)
  = micro_steps e lo (mid + Z.of_nat k).
Proof.
  intros H. induction k as [| k IH].
  - rewrite Z.add_0_r, micro_steps_nil, app_nil_r. reflexivity.
  - replace (mid + Z.of_nat (S k)) with (mid + Z.of_nat k + 1) by lia.
    rewrite !micro_steps_snoc by lia. rewrite app_assoc, IH. reflexivity.
Qed.

Lemma micro_steps_join (e lo mid hi : Z) :
  lo <= mid -> mid <= hi ->
  micro_steps e lo mid ++ micro_steps e mid hi = micro_steps e lo hi.
Proof.
  intros H1 H2. replace hi with (mid + Z.of_nat (Z.to_nat (hi - mid))) by lia.
  apply micro_steps_app. exact H1.
Qed.

Lemma grads_micro_next (g : Globals) (wandb : bool) (t0 : R) (epoch step : Z)
    (b : Batch) (s : TrainState) :
  grads (micro_next g wandb t0 epoch step b s)
  = if (step + 1) mod accumulation_steps (args s) =? 0 then []
    else grads s ++ [(epoch, step)].
Proof.
  unfold micro_next, micro_state, checkpoint_state, report_state, boundary_state.
  simpl args.
  repeat match goal with
         | |- context [if ?c then _ else _] => destruct c
         end; reflexivity.
Qed.

Lemma updates_micro_next (g : Globals) (wandb : bool) (t0 : R) (epoch step : Z)
    (b : Batch) (s : TrainState) :
  updates (micro_next g wandb t0 epoch step b s)
  = if (step + 1) mod accumulation_steps (args s) =? 0
    then updates s ++ [grads s ++ [(epoch, step)]]
    else updates s.
Proof.
  unfold micro_next, micro_state, checkpoint_state, report_state, boundary_state.
  simpl args.
  repeat match goal with
         | |- context [if ?c then _ else _] => destruct c
         end; reflexivity.
Qed.

(** The gradients and the updates after the first [n] micro-steps of an
    epoch, for a positive [accumulation_steps]. *)
Lemma steps_gradients (g : Globals) (wandb : bool) (t0 : R) (e : Z)
    (l : list Batch) (s : TrainState) :
  0 < accumulation_steps (args s) ->
  exists U : list (list MicroStep),
    updates (steps_state g wandb t0 e 0 l s) = updates s ++ U
    /\ Z.of_nat (List.length U) = Z.of_nat (List.length l) / accumulation_steps (args s)
    /\ grads (steps_state g wandb t0 e 0 l s)
       = (if Z.of_nat (List.length l) <? accumulation_steps (args s)
          then grads s else [])
         ++ micro_steps e (Z.of_nat (List.length l)
                           - Z.of_nat (List.length l) mod accumulation_steps (args s))
              (Z.of_nat (List.length l))
    /\ concat U
       = (if Z.of_nat (List.length l) <? accumulation_steps (args s) then []
          else grads s
               ++ micro_steps e 0
                    (Z.of_nat (List.length l)
                     - Z.of_nat (List.length l) mod accumulation_steps (args s)))
    /\ (accumulation_steps (args s) <= Z.of_nat (List.length l) ->
        head U = Some (grads s ++ micro_steps e 0 (accumulation_steps (args s)))).
Proof.
  intros Ha. set (a := accumulation_steps (args s)) in *.
  induction l as [| b l IH] using rev_ind.
  - exists []. simpl. change (Z.of_nat 0) with 0.
    rewrite app_nil_r, Z.mod_0_l, Z.div_0_l by lia.
    destruct (Z.ltb_spec 0 a); [| lia]. rewrite micro_steps_nil, app_nil_r.
    repeat split; try reflexivity. intros Hle. lia.
  - destruct IH as (U & HU & Hlen & Hg & Hc & Hh).
    rewrite steps_state_snoc, length_app, Nat2Z.inj_add.
    change (Z.of_nat (List.length [b])) with 1.
    set (n := Z.of_nat (List.length l)) in *.
    set (s' := steps_state g wandb t0 e 0 l s) in *.
    assert (Hn : 0 <= n) by (unfold n; lia).
    pose proof (Z.mod_pos_bound n a Ha) as Hmod.
    rewrite grads_micro_next, updates_micro_next.
    replace (args s') with (args s) by (unfold s'; rewrite args_steps_state; reflexivity).
    fold a. rewrite Z.add_0_l.
    destruct (mod_succ_cases n a Ha) as [(Hm & Hlast & Hd) | (Hm & Hd & Hnot)].
    + rewrite Hm. change (0 =? 0) with true. cbv iota.
      assert (Hge : a <= n + 1).
      { destruct (Z_lt_le_dec (n + 1) a) as [Hlt |]; [| assumption].
        rewrite Z.mod_small in Hm by lia. lia. }
      destruct (Z.ltb_spec (n + 1) a) as [Hlt | _]; [lia |].
      exists (U ++ [grads s' ++ [(e, n)]]).
      split; [rewrite HU, <- app_assoc; reflexivity |].
      split; [rewrite length_app, Nat2Z.inj_add, Hlen, Hd; reflexivity |].
      split; [rewrite Z.sub_0_r, micro_steps_nil; reflexivity |].
      assert (Hlast_update :
                concat U ++ grads s' ++ [(e, n)] = grads s ++ micro_steps e 0 (n + 1)).
      { rewrite Hc, Hg. destruct (Z.ltb_spec n a) as [Hlt | Hnge].
        - rewrite Z.mod_small by lia. rewrite Z.sub_diag. simpl.
          rewrite <- app_assoc, <- micro_steps_snoc by lia. reflexivity.
        - simpl. rewrite <- app_assoc. f_equal.
          rewrite <- micro_steps_snoc by lia.
          apply micro_steps_join; lia. }
      split.
      * rewrite concat_app. simpl. rewrite app_nil_r, Z.sub_0_r. exact Hlast_update.
      * intros _. destruct (Z.ltb_spec n a) as [Hlt | Hnge].
        -- assert (U = []) as ->.
           { destruct U; [reflexivity |]. simpl in Hlen.
             rewrite Z.div_small in Hlen by lia. lia. }
           simpl in Hlast_update |- *. rewrite Hlast_update.
           do 3 f_equal. rewrite Z.mod_small in Hlast by lia. lia.
        -- specialize (Hh Hnge). destruct U; [discriminate |]. exact Hh.
    + destruct (Z.eqb_spec ((n + 1) mod a) 0) as [E | _]; [lia |].
      exists U. rewrite Hd, Hm.
      replace (n + 1 - (n mod a + 1)) with (n - n mod a) by lia.
      assert (Hsame : (n + 1 <? a) = (n <? a)).
      { destruct (Z.ltb_spec (n + 1) a), (Z.ltb_spec n a); try reflexivity; try lia.
        rewrite Z.mod_small in Hnot by lia. lia. }
      rewrite Hsame.
      split; [exact HU |]. split; [exact Hlen |].
      split; [rewrite Hg, <- app_assoc, <- micro_steps_snoc by lia; reflexivity |].
      split; [exact Hc |].
      intros Hge. apply Hh.
      destruct (Z.ltb_spec n a) as [Hlt |]; [| assumption].
      rewrite Z.mod_small in Hnot by lia. lia.
Qed.

End Accumulation.

(** ** C8: the micro-steps after the last boundary of an epoch *)

Section EpochTail.
Context {FW : Framework}.

Lemma epoch_gradients (g : Globals) (wandb : bool) (e : Z) (s : TrainState) :
  0 < accumulation_steps (args s) ->
  iter_per_epoch g = Z.of_nat (List.length (train_loader g)) ->
  exists U : list (list MicroStep),
    updates (epoch_state g wandb e s) = updates s ++ U
    /\ Z.of_nat (List.length U) = iter_per_epoch g / accumulation_steps (args s)
    /\ grads (epoch_state g wandb e s)
       = (if iter_per_epoch g <? accumulation_steps (args s) then grads s else [])
         ++ micro_steps e (iter_per_epoch g
                           - iter_per_epoch g mod accumulation_steps (args s))
              (iter_per_epoch g)
    /\ concat U
       = (if iter_per_epoch g <? accumulation_steps (args s) then []
          else grads s
               ++ micro_steps e 0
                    (iter_per_epoch g
                     - iter_per_epoch g mod accumulation_steps (args s)))
    /\ (accumulation_steps (args s) <= iter_per_epoch g ->
        head U = Some (grads s ++ micro_steps e 0 (accumulation_steps (args s)))).
Proof.
  intros Ha Hn. rewrite Hn. unfold epoch_state.
  apply (steps_gradients g wandb (wall_clock (clock_reads s)) e (train_loader g) (tick s)).
  exact Ha.
Qed.

(** What the per-epoch step counter of line 93 does with the tail of an
    epoch (the defect reported for C1 and C8): when [iter_per_epoch] is not
    a multiple of [accumulation_steps], an epoch ends with the gradients of
    its trailing micro-steps still accumulated: the updates of the epoch
    consumed the micro-steps before them only, and nothing zeroed them.  If
    [accumulation_steps <= iter_per_epoch], the first update of the next
    epoch consumes them together with the first [accumulation_steps]
    micro-steps of that epoch; if [iter_per_epoch < accumulation_steps], the
    next epoch makes no update either and only adds its own micro-steps. *)
Theorem trailing_gradients_carry_over (g : Globals) (wandb : bool) (e : Z)
    (s : TrainState) :
  forallb Loss.well_shaped (train_loader g) = true ->
  runnable g s ->
  iter_per_epoch g = Z.of_nat (List.length (train_loader g)) ->
  0 < accumulation_steps (args s) ->
  iter_per_epoch g mod accumulation_steps (args s) <> 0 ->
  exists (s1 s2 : TrainState) (U : list (list MicroStep)),
    train_epoch g e wandb s = (Ok tt, s1)
    /\ train_epoch g (e + 1) wandb s1 = (Ok tt, s2)
    /\ grads s1
       = (if iter_per_epoch g <? accumulation_steps (args s) then grads s else [])
         ++ micro_steps e (iter_per_epoch g
                           - iter_per_epoch g mod accumulation_steps (args s))
              (iter_per_epoch g)
    /\ updates s1 = updates s ++ U
    /\ concat U
       = (if iter_per_epoch g <? accumulation_steps (args s) then []
          else grads s
               ++ micro_steps e 0
                    (iter_per_epoch g
                     - iter_per_epoch g mod accumulation_steps (args s)))
    /\ (accumulation_steps (args s) <= iter_per_epoch g ->
        exists U' : list (list MicroStep),
          updates s2 = updates s1 ++ U'
          /\ head U'
             = Some (grads s1 ++ micro_steps (e + 1) 0 (accumulation_steps (args s))))
    /\ (iter_per_epoch g < accumulation_steps (args s) ->
        updates s2 = updates s1
        /\ grads s2 = grads s1 ++ micro_steps (e + 1) 0 (iter_per_epoch g)).
Proof.
  intros Hl Hrun Hn Ha Hr.
  set (a := accumulation_steps (args s)) in *.
  set (s1 := epoch_state g wandb e s).
  assert (Hargs1 : args s1 = args s) by apply args_epoch_state.
  assert (Hrun1 : runnable g s1) by (apply runnable_epoch_state; exact Hrun).
  destruct (epoch_gradients g wandb e s Ha Hn) as (U & HU & _ & Hg & Hc & _).
  destruct (epoch_gradients g wandb (e + 1) s1) as (U' & HU' & Hlen' & Hg' & _ & Hh');
    [rewrite Hargs1; exact Ha | exact Hn |].
  rewrite Hargs1 in Hlen', Hg', Hh'. fold a in Hg, Hc, Hlen', Hg', Hh'.
  exists s1, (epoch_state g wandb (e + 1) s1), U.
  split; [apply train_epoch_run; assumption |].
  split; [apply train_epoch_run; assumption |].
  split; [exact Hg |]. split; [exact HU |]. split; [exact Hc |].
  split.
  - intros Hge. exists U'. split; [exact HU' | apply Hh'; exact Hge].
  - intros Hlt. split.
    + assert (U' = []) as ->.
      { destruct U'; [reflexivity |]. simpl in Hlen'.
        rewrite Z.div_small in Hlen' by lia. lia. }
      rewrite HU', app_nil_r. reflexivity.
    + rewrite Hg'. destruct (Z.ltb_spec (iter_per_epoch g) a) as [_ | Hge]; [| lia].
      rewrite (Z.mod_small (iter_per_epoch g) a) by lia.
      rewrite Z.sub_diag. reflexivity.
Qed.

End EpochTail.

(** C8 on a run of three epochs of one micro-step with
    [accumulation_steps = 2]: the gradient of micro-step (0, 0) is left over
    by epoch 0, and epoch 1, which is not the last one, calls [scaler.step]
    not once, because the step counter of line 93 starts again at 0 in every
    epoch: there is no first update of the next epoch to include it. *)
Lemma short_epoch_has_no_next_update :
  iter_per_epoch (Fixture.globals_of 3 2 100 1)
    mod accumulation_steps (args (Fixture.start_of 3 2 100)) <> 0
  /\ 1 + 1 < epochs (args (Fixture.start_of 3 2 100))
  /\ exists s1 s2 : TrainState,
       @train_epoch Fixture.causal (Fixture.globals_of 3 2 100 1) 0 false
         (Fixture.start_of 3 2 100) = (Ok tt, s1)
       /\ @train_epoch Fixture.causal (Fixture.globals_of 3 2 100 1) 1 false s1
          = (Ok tt, s2)
       /\ grads s1 = [(0, 0)]
       /\ updates s2 = updates s1
       /\ count_events is_scaler_step (trace s2) = 0%nat
       /\ In (0, 0) (grads s2).
Proof.
  split; [vm_compute; discriminate |]. split; [vm_compute; reflexivity |].
  exists (@epoch_state Fixture.causal (Fixture.globals_of 3 2 100 1) false 0
            (Fixture.start_of 3 2 100)).
  exists (@epoch_state Fixture.causal (Fixture.globals_of 3 2 100 1) false 1
            (@epoch_state Fixture.causal (Fixture.globals_of 3 2 100 1) false 0
               (Fixture.start_of 3 2 100))).
  assert (Hrun : @runnable (Fixture.globals_of 3 2 100 1) (Fixture.start_of 3 2 100)).
  { repeat split; vm_compute; discriminate. }
  split; [apply train_epoch_run; [vm_compute; reflexivity | exact Hrun] |].
  split; [apply train_epoch_run;
          [vm_compute; reflexivity | apply runnable_epoch_state; exact Hrun] |].
  split; [vm_compute; reflexivity |].
  split; [vm_compute; reflexivity |].
  split; [vm_compute; reflexivity |].
  vm_compute. left. reflexivity.
Qed.

(** ** C1: updates per micro-step *)

(** C1 on a run of two epochs of three micro-steps with
    [accumulation_steps = 2]: six backward calls, but two calls of
    [scaler.step] instead of three; the second one comes after three further
    backward calls and consumes the gradients of micro-steps (0, 2), (1, 0)
    and (1, 1), and the gradient of (1, 2) is never applied. *)
Lemma two_updates_for_six_micro_steps :
  let run := @main Fixture.causal Fixture.single (Fixture.loader 3)
               (initial_state (Fixture.args_with 2 2 100 100) ∅) in
  fst run = Ok tt
  /\ count_events is_backward (trace (snd run)) = 6%nat
  /\ count_events is_scaler_step (trace (snd run)) = 2%nat
  /\ updates (snd run) = [[(0, 0); (0, 1)]; [(0, 2); (1, 0); (1, 1)]]
  /\ grads (snd run) = [(1, 2)].
Proof. vm_compute. repeat split; reflexivity. Qed.

(** ** The events of a micro-step *)

Section StepEvents.
Context {FW : Framework}.

Lemma trace_micro_state (g : Globals) (wandb : bool) (t0 : R) (epoch step : Z)
    (lr : R) (loss : option R) (s : TrainState) :
  trace (micro_state g wandb t0 epoch step lr loss s)
  = trace s ++ micro_events g wandb t0 epoch step lr loss s.
Proof.
  unfold micro_state, micro_events. cbv zeta.
  set (s1 := backward_state (epoch, step) lr loss s).
  set (s2 := boundary_state step s1).
  set (s3 := report_state g wandb t0 epoch step loss s2).
  assert (H2 : args s2 = args s) by (unfold s2; rewrite args_boundary_state; reflexivity).
  assert (H3 : args s3 = args s)
    by (unfold s3; rewrite args_report_state; exact H2).
  assert (T2 : trace s2 = trace s1
                 ++ (if (step + 1) mod accumulation_steps (args s) =? 0
                     then boundary_events (args s) else [])).
  { unfold s2, boundary_state. simpl args.
    destruct ((step + 1) mod accumulation_steps (args s) =? 0); simpl;
      rewrite ?app_nil_r; reflexivity. }
  assert (T3 : trace s3 = trace s2
                 ++ (if step mod log_interval (args s) =? 0
                     then report_events g wandb (report_line g t0 epoch step loss s2)
                     else [])).
  { unfold s3, report_state. rewrite H2.
    destruct (step mod log_interval (args s) =? 0); simpl;
      rewrite ?app_nil_r; reflexivity. }
  assert (U3 : updates s3 = updates s2).
  { unfold s3, report_state. rewrite H2.
    destruct (step mod log_interval (args s) =? 0); reflexivity. }
  unfold checkpoint_state. rewrite H3.
  destruct (writes_checkpoint g step (args s)); simpl trace;
    rewrite ?U3, T3, T2; unfold s1; simpl trace;
    rewrite <- ?app_assoc, ?app_nil_r; reflexivity.
Qed.

Lemma step_events_run (g : Globals) (wandb : bool) (t0 : R) (epoch step : Z)
    (b : Batch) (s : TrainState) :
  runnable g s ->
  Loss.well_shaped b = true ->
  step_events g wandb t0 epoch step b s
  = micro_events g wandb t0 epoch step (lr_of g epoch step s) (loss_of b s) s.
Proof.
  intros Hrun Hb. unfold step_events.
  rewrite (micro_step_ok g wandb t0 epoch step b s Hrun Hb). simpl snd.
  unfold micro_next. rewrite trace_micro_state.
  rewrite skipn_app, Nat.sub_diag, skipn_all. reflexivity.
Qed.

Lemma last_map_const {A : Type} (l : list A) (v : R) :
  l <> [] -> last (map (fun _ => v) l) = Some v.
Proof.
  induction l as [| x [| y l] IH]; intros H; [contradiction | reflexivity |].
  change (last (v :: map (fun _ => v) (y :: l)) = Some v).
  rewrite last_cons. rewrite IH by discriminate. reflexivity.
Qed.

Lemma designated_iff (g : Globals) :
  designated g = true <-> ddp g = false \/ rank g = 0.
Proof.
  unfold designated. rewrite orb_true_iff, negb_true_iff, Z.eqb_eq. reflexivity.
Qed.

End StepEvents.

(** ** C3: the accumulation boundary *)

Section Boundary.
Context {FW : Framework}.

Lemma report_events_quiet (g : Globals) (wandb : bool) (line : LogLine) :
  Forall (fun e => touches_gradients e = false) (report_events g wandb line).
Proof.
  unfold report_events.
  destruct (designated g), wandb; simpl; repeat constructor.
Qed.

Lemma checkpoint_events_quiet (ckp : string) (snap : Snapshot) :
  Forall (fun e => touches_gradients e = false) (checkpoint_events ckp snap).
Proof. unfold checkpoint_events. repeat constructor. Qed.

(** C3: a micro-step that runs to its end makes, after its forward and
    backward pass, the five calls unscale, clip, step, scale update and
    zero-grad, in this order and with nothing between them, if [step + 1] is
    a multiple of [accumulation_steps], and none of them otherwise; what
    follows in the micro-step (report, checkpoint) touches no gradient.  At
    a boundary the update consumes the accumulated gradients with those of
    this micro-step, and no gradient is left. *)
Theorem boundary_calls_in_order (g : Globals) (wandb : bool) (t0 : R)
    (epoch step : Z) (b : Batch) (s : TrainState) :
  runnable g s ->
  Loss.well_shaped b = true ->
  exists (loss : option R) (tail : list Event),
    fst (micro_step g wandb t0 epoch step b s) = Ok tt
    /\ Forall (fun e => touches_gradients e = false) tail
    /\ ((step + 1) mod accumulation_steps (args s) = 0 ->
        step_events g wandb t0 epoch step b s
        = [EvForward (epoch, step); EvBackward (epoch, step) loss;
           EvUnscale; EvClipGradNorm (grad_clip (args s)); EvScalerStep;
           EvScalerUpdate; EvZeroGrad] ++ tail
        /\ grads (snd (micro_step g wandb t0 epoch step b s)) = []
        /\ updates (snd (micro_step g wandb t0 epoch step b s))
           = updates s ++ [grads s ++ [(epoch, step)]])
    /\ ((step + 1) mod accumulation_steps (args s) <> 0 ->
        step_events g wandb t0 epoch step b s
        = [EvForward (epoch, step); EvBackward (epoch, step) loss] ++ tail
        /\ grads (snd (micro_step g wandb t0 epoch step b s))
           = grads s ++ [(epoch, step)]
        /\ updates (snd (micro_step g wandb t0 epoch step b s)) = updates s).
Proof.
  intros Hrun Hb.
  rewrite (step_events_run g wandb t0 epoch step b s Hrun Hb).
  rewrite (micro_step_ok g wandb t0 epoch step b s Hrun Hb). simpl fst. simpl snd.
  rewrite grads_micro_next, updates_micro_next.
  unfold micro_events. cbv zeta.
  set (line := report_line _ _ _ _ _ _).
  set (ckp := ckp_path _ _). set (snap := updates _).
  exists (loss_of b s).
  exists ((if step mod log_interval (args s) =? 0
           then report_events g wandb line else [])
          ++ (if writes_checkpoint g step (args s)
              then checkpoint_events ckp snap else [])).
  split; [reflexivity |]. split.
  - apply Forall_app. split.
    + destruct (_ =? 0); [apply report_events_quiet | constructor].
    + destruct (writes_checkpoint _ _ _); [apply checkpoint_events_quiet | constructor].
  - split; intros Hm.
    + rewrite Hm. change (0 =? 0) with true. cbv iota.
      repeat split; reflexivity.
    + destruct (Z.eqb_spec ((step + 1) mod accumulation_steps (args s)) 0) as [E | _];
        [contradiction |].
      repeat split; reflexivity.
Qed.

End Boundary.

(** ** The checkpoint path *)

Section CheckpointPath.

Lemma append_cancel_l (p a b : string) : p +:+ a = p +:+ b -> a = b.
Proof.
  induction p as [| c p IH]; simpl; intros H; [exact H |].
  injection H as H. apply IH. exact H.
Qed.

Lemma uint_chars (d : Decimal.uint) :
  all_chars is_num_char (NilEmpty.string_of_uint d) = true.
Proof. induction d; simpl; try rewrite IHd; reflexivity. Qed.

Lemma str_int_chars (n : Z) : all_chars is_num_char (str_int n) = true.
Proof.
  unfold str_int, NilZero.string_of_int, NilZero.string_of_uint.
  destruct (Z.to_int n) as [d | d]; destruct d; simpl; rewrite ?uint_chars; reflexivity.
Qed.

Lemma to_int_proper (n : Z) :
  Z.to_int n <> Decimal.Pos Decimal.Nil /\ Z.to_int n <> Decimal.Neg Decimal.Nil.
Proof.
  destruct n as [| p | p]; simpl; split; try discriminate;
    intros H; injection H as H; exact (DecimalPos.Unsigned.to_uint_nonnil p H).
Qed.

Lemma str_int_inj (n m : Z) : str_int n = str_int m -> n = m.
Proof.
  unfold str_int. intros H.
  destruct (to_int_proper n) as [Hn1 Hn2], (to_int_proper m) as [Hm1 Hm2].
  pose proof (NilZero.isi (Z.to_int n) Hn1 Hn2) as En.
  pose proof (NilZero.isi (Z.to_int m) Hm1 Hm2) as Em.
  rewrite H in En. rewrite En in Em. injection Em as Em.
  rewrite <- (DecimalZ.of_to n), <- (DecimalZ.of_to m), Em. reflexivity.
Qed.

(** Two strings that start with characters of a class and go on with a
    character outside it are cut at the same place. *)
Lemma split_at_first_other (p : ascii -> bool) (s : string) :
  forall (s' : string) (c c' : ascii) (r r' : string),
    all_chars p s = true -> all_chars p s' = true ->
    p c = false -> p c' = false ->
    s +:+ String c r = s' +:+ String c' r' ->
    s = s' /\ c = c' /\ r = r'.
Proof.
  induction s as [| x s IH]; intros [| x' s'] c c' r r' Hs Hs' Hc Hc' H; simpl in *.
  - injection H as -> ->. repeat split.
  - injection H as -> _. apply andb_true_iff in Hs' as [Hx _]. congruence.
  - injection H as -> _. apply andb_true_iff in Hs as [Hx _]. congruence.
  - injection H as -> H.
    apply andb_true_iff in Hs as [_ Hs]. apply andb_true_iff in Hs' as [_ Hs'].
    destruct (IH s' c c' r r' Hs Hs' Hc Hc' H) as (-> & -> & ->). repeat split.
Qed.

(** For one directory, the path is the width and the mixture-of-experts
    flag, and nothing else. *)
Lemma ckp_path_inj (dir : string) (c c' : LMConfig) :
  ckp_path dir c = ckp_path dir c' -> dim c = dim c' /\ use_moe c = use_moe c'.
Proof.
  unfold ckp_path, moe_path. intros H.
  apply append_cancel_l in H. simpl in H. injection H as H.
  pose proof (str_int_chars (dim c)) as Hc. pose proof (str_int_chars (dim c')) as Hc'.
  destruct (use_moe c), (use_moe c'); simpl in H.
  - apply split_at_first_other with (p := is_num_char) in H; try assumption;
      try reflexivity.
    destruct H as (H & _). split; [apply str_int_inj; exact H | reflexivity].
  - apply split_at_first_other with (p := is_num_char) in H; try assumption;
      try reflexivity.
    destruct H as (_ & H & _). discriminate.
  - apply split_at_first_other with (p := is_num_char) in H; try assumption;
      try reflexivity.
    destruct H as (_ & H & _). discriminate.
  - apply split_at_first_other with (p := is_num_char) in H; try assumption;
      try reflexivity.
    destruct H as (H & _). split; [apply str_int_inj; exact H | reflexivity].
Qed.

End CheckpointPath.

(** ** C5: when a checkpoint is written *)

Section Checkpoint.
Context {FW : Framework}.

Lemma report_events_no_save (g : Globals) (wandb : bool) (line : LogLine) :
  existsb is_save (report_events g wandb line) = false.
Proof. unfold report_events. destruct (designated g), wandb; reflexivity. Qed.

(** The checkpoint of a micro-step, if any, is its last three events. *)
Lemma micro_events_checkpoint (g : Globals) (wandb : bool) (t0 : R) (epoch step : Z)
    (lr : R) (loss : option R) (s : TrainState) :
  exists front : list Event,
    existsb is_save front = false
    /\ micro_events g wandb t0 epoch step lr loss s
       = front
         ++ (if writes_checkpoint g step (args s)
             then checkpoint_events
                    (ckp_path (default "" (save_dir (args s))) (lm_config g))
                    (updates (micro_state g wandb t0 epoch step lr loss s))
             else []).
Proof.
  unfold micro_events. cbv zeta.
  set (s2 := boundary_state step (backward_state (epoch, step) lr loss s)).
  assert (U : updates (micro_state g wandb t0 epoch step lr loss s) = updates s2).
  { unfold micro_state. fold s2. unfold checkpoint_state, report_state.
    repeat match goal with
           | |- context [if ?c then _ else _] => destruct c
           end; reflexivity. }
  rewrite U.
  exists ([EvForward (epoch, step); EvBackward (epoch, step) loss]
          ++ (if (step + 1) mod accumulation_steps (args s) =? 0
              then boundary_events (args s) else [])
          ++ (if step mod log_interval (args s) =? 0
              then report_events g wandb (report_line g t0 epoch step loss s2) else [])).
  split.
  - rewrite !existsb_app. simpl.
    destruct ((step + 1) mod accumulation_steps (args s) =? 0);
      destruct (step mod log_interval (args s) =? 0);
      simpl; rewrite ?report_events_no_save; reflexivity.
  - rewrite <- !app_assoc. reflexivity.
Qed.

Lemma micro_state_files (g : Globals) (wandb : bool) (t0 : R) (epoch step : Z)
    (lr : R) (loss : option R) (s : TrainState) :
  let s' := micro_state g wandb t0 epoch step lr loss s in
  if writes_checkpoint g step (args s)
  then training s' = true
       /\ disk s'
          = <[ckp_path (default "" (save_dir (args s))) (lm_config g) := updates s']>
              (disk s)
  else training s' = training s /\ disk s' = disk s.
Proof.
  cbv zeta. unfold micro_state.
  set (s1 := backward_state (epoch, step) lr loss s).
  set (s2 := boundary_state step s1).
  set (s3 := report_state g wandb t0 epoch step loss s2).
  assert (H3 : args s3 = args s).
  { unfold s3. rewrite args_report_state. unfold s2. rewrite args_boundary_state.
    reflexivity. }
  assert (F3 : training s3 = training s /\ disk s3 = disk s).
  { unfold s3, report_state, s2, boundary_state, s1.
    repeat match goal with
           | |- context [if ?c then _ else _] => destruct c
           end; split; reflexivity. }
  destruct F3 as [T3 D3].
  unfold checkpoint_state. rewrite H3.
  destruct (writes_checkpoint g step (args s)); simpl.
  - rewrite D3. split; reflexivity.
  - split; assumption.
Qed.

Lemma writes_checkpoint_iff (g : Globals) (step : Z) (a : Args) :
  writes_checkpoint g step a = true
  <-> (step + 1) mod save_interval a = 0 /\ (ddp g = false \/ rank g = 0).
Proof.
  unfold writes_checkpoint. rewrite andb_true_iff, Z.eqb_eq, designated_iff.
  reflexivity.
Qed.

Lemma step_saves_iff (g : Globals) (wandb : bool) (t0 : R) (epoch step : Z)
    (b : Batch) (s : TrainState) :
  runnable g s ->
  Loss.well_shaped b = true ->
  existsb is_save (step_events g wandb t0 epoch step b s)
  = writes_checkpoint g step (args s).
Proof.
  intros Hrun Hb. rewrite (step_events_run _ _ _ _ _ _ _ Hrun Hb).
  destruct (micro_events_checkpoint g wandb t0 epoch step (lr_of g epoch step s)
              (loss_of b s) s) as (front & Hfront & ->).
  rewrite existsb_app, Hfront.
  destruct (writes_checkpoint g step (args s)); reflexivity.
Qed.

(** C5: a micro-step that runs to its end writes a checkpoint exactly when
    [step + 1] is a multiple of [save_interval] and the process is the sole
    one or the one of rank 0.  The write is the last thing the micro-step
    does: evaluation mode, the parameters as they are now saved to
    [<save_dir>/pretrain_<dim>[_moe].pth], training mode; the path tells
    apart any two widths and the two values of the mixture-of-experts flag.
    Of two processes of a distributed run with different ranks, at most one
    writes at a given step. *)
Theorem checkpoint_on_interval_and_rank_zero (g : Globals) (wandb : bool) (t0 : R)
    (epoch step : Z) (b : Batch) (s : TrainState) (dir : string) :
  runnable g s ->
  Loss.well_shaped b = true ->
  save_dir (args s) = Some dir ->
  fst (micro_step g wandb t0 epoch step b s) = Ok tt
  /\ (existsb is_save (step_events g wandb t0 epoch step b s) = true
      <-> (step + 1) mod save_interval (args s) = 0 /\ (ddp g = false \/ rank g = 0))
  /\ (existsb is_save (step_events g wandb t0 epoch step b s) = true ->
      exists front : list Event,
        existsb is_save front = false
        /\ step_events g wandb t0 epoch step b s
           = front
             ++ [EvEval;
                 EvSave (dir +:+ "/pretrain_" +:+ str_int (dim (lm_config g))
                         +:+ (if use_moe (lm_config g) then "_moe" else "") +:+ ".pth")
                   (updates (snd (micro_step g wandb t0 epoch step b s)));
                 EvTrain]
        /\ training (snd (micro_step g wandb t0 epoch step b s)) = true
        /\ disk (snd (micro_step g wandb t0 epoch step b s))
             !! ckp_path dir (lm_config g)
           = Some (updates (snd (micro_step g wandb t0 epoch step b s))))
  /\ (forall c' : LMConfig,
        ckp_path dir (lm_config g) = ckp_path dir c' ->
        dim (lm_config g) = dim c' /\ use_moe (lm_config g) = use_moe c')
  /\ (forall (g' : Globals) (wandb' : bool) (t0' : R) (b' : Batch) (s' : TrainState),
        runnable g' s' -> Loss.well_shaped b' = true ->
        ddp g = true -> ddp g' = true -> rank g <> rank g' ->
        existsb is_save (step_events g wandb t0 epoch step b s) = true ->
        existsb is_save (step_events g' wandb' t0' epoch step b' s') = false).
Proof.
  intros Hrun Hb Hdir.
  rewrite (step_saves_iff g wandb t0 epoch step b s Hrun Hb).
  split; [rewrite (micro_step_ok g wandb t0 epoch step b s Hrun Hb); reflexivity |].
  split; [apply writes_checkpoint_iff |].
  split; [| split; [intros c'; apply ckp_path_inj |]].
  - intros Hw.
    rewrite (step_events_run _ _ _ _ _ _ _ Hrun Hb).
    rewrite (micro_step_ok g wandb t0 epoch step b s Hrun Hb). simpl snd.
    unfold micro_next.
    destruct (micro_events_checkpoint g wandb t0 epoch step (lr_of g epoch step s)
                (loss_of b s) s) as (front & Hfront & Hev).
    pose proof (micro_state_files g wandb t0 epoch step (lr_of g epoch step s)
                  (loss_of b s) s) as Hfiles.
    cbv zeta in Hfiles. rewrite Hw, Hdir in *. simpl in Hev, Hfiles.
    destruct Hfiles as [Htrain Hdisk].
    exists front. split; [exact Hfront |]. split; [exact Hev |].
    split; [exact Htrain |].
    rewrite Hdisk. apply lookup_insert_eq.
  - intros g' wandb' t0' b' s' Hrun' Hb' Hddp Hddp' Hrank Hw.
    rewrite (step_saves_iff g' wandb' t0' epoch step b' s' Hrun' Hb').
    apply writes_checkpoint_iff in Hw as [_ [Hno | Hzero]]; [congruence |].
    destruct (writes_checkpoint g' step (args s')) eqn:Hw'; [| reflexivity].
    apply writes_checkpoint_iff in Hw' as [_ [Hno' | Hzero']]; [congruence |].
    congruence.
Qed.

End Checkpoint.

(** ** C6: the progress line *)

Section ProgressReport.
Context {FW : Framework}.

Lemma micro_events_prints (g : Globals) (wandb : bool) (t0 : R) (epoch step : Z)
    (lr : R) (loss : option R) (s : TrainState) :
  existsb is_print (micro_events g wandb t0 epoch step lr loss s)
  = (step mod log_interval (args s) =? 0) && designated g.
Proof.
  unfold micro_events, report_events, checkpoint_events, boundary_events. cbv zeta.
  rewrite !existsb_app.
  destruct ((step + 1) mod accumulation_steps (args s) =? 0);
    destruct (step mod log_interval (args s) =? 0);
    destruct (writes_checkpoint g step (args s));
    destruct (designated g); destruct wandb; reflexivity.
Qed.

Lemma micro_events_printed (g : Globals) (wandb : bool) (t0 : R) (epoch step : Z)
    (lr : R) (loss : option R) (s : TrainState) (c : Content) :
  In (EvPrint c) (micro_events g wandb t0 epoch step lr loss s) ->
  c = ProgressLine
        (report_line g t0 epoch step loss
           (boundary_state step (backward_state (epoch, step) lr loss s))).
Proof.
  unfold micro_events, report_events, checkpoint_events, boundary_events. cbv zeta.
  rewrite !in_app_iff.
  destruct ((step + 1) mod accumulation_steps (args s) =? 0);
    destruct (step mod log_interval (args s) =? 0);
    destruct (writes_checkpoint g step (args s));
    destruct (designated g); destruct wandb; simpl;
    intuition (try discriminate; try congruence).
Qed.

Lemma scaled_back (v : R) (a : Z) : a <> 0 -> (v / IZR a * IZR a = v)%R.
Proof. intros Ha. field. apply not_0_IZR. exact Ha. Qed.

(** C6: a micro-step that runs to its end prints a line exactly when [step]
    is a multiple of [log_interval] and the process is the sole one or the
    one of rank 0.  The loss of the line is the backpropagated loss
    multiplied by [accumulation_steps], which is the masked mean plus the
    auxiliary loss, before its division; the rate of the line is the
    scheduled rate of this micro-step, read from the last parameter group. *)
Theorem progress_line_on_rank_zero (g : Globals) (wandb : bool) (t0 : R)
    (epoch step : Z) (b : Batch) (s : TrainState) :
  runnable g s ->
  Loss.well_shaped b = true ->
  exists (lr : R) (loss : option R),
    Schedule.get_lr (epoch * iter_per_epoch g + step)
      (epochs (args s) * iter_per_epoch g) (learning_rate (args s)) = Ok lr
    /\ Loss.batch_loss b (accumulation_steps (args s)) = Ok loss
    /\ fst (micro_step g wandb t0 epoch step b s) = Ok tt
    /\ In (EvBackward (epoch, step) loss) (step_events g wandb t0 epoch step b s)
    /\ (existsb is_print (step_events g wandb t0 epoch step b s) = true
        <-> step mod log_interval (args s) = 0 /\ (ddp g = false \/ rank g = 0))
    /\ (forall c : Content,
          In (EvPrint c) (step_events g wandb t0 epoch step b s) ->
          exists line : LogLine,
            c = ProgressLine line
            /\ ll_loss line
               = option_map (fun l => (l * IZR (accumulation_steps (args s)))%R) loss
            /\ ll_lr line = lr
            /\ ll_epoch line = epoch + 1 /\ ll_step line = step)
    /\ last (param_groups (snd (micro_step g wandb t0 epoch step b s))) = Some lr
    /\ (forall (t : Tensor R) (aux mean : R),
          Loss.token_losses b = Ok (t, aux) ->
          Loss.masked_mean t (loss_mask b) = Ok (Some mean) ->
          option_map (fun l => (l * IZR (accumulation_steps (args s)))%R) loss
          = Some (mean + aux)%R).
Proof.
  intros Hrun Hb.
  pose proof Hrun as (Hacc & Hli & Hsi & Htotal & Hdir & Hgroups).
  destruct (batch_loss_ok b (accumulation_steps (args s)) Hb) as (t & Ht & Hshape & Hloss).
  exists (lr_of g epoch step s), (loss_of b s).
  rewrite (step_events_run _ _ _ _ _ _ _ Hrun Hb).
  rewrite (micro_step_ok g wandb t0 epoch step b s Hrun Hb). simpl fst. simpl snd.
  assert (Elr : Schedule.get_lr (epoch * iter_per_epoch g + step)
                  (epochs (args s) * iter_per_epoch g) (learning_rate (args s))
                = Ok (lr_of g epoch step s)).
  { unfold lr_of. rewrite (get_lr_ok _ _ _ Htotal). reflexivity. }
  assert (Eloss : Loss.batch_loss b (accumulation_steps (args s)) = Ok (loss_of b s)).
  { unfold loss_of. rewrite Hloss. reflexivity. }
  assert (Elast : last (map (fun _ => lr_of g epoch step s) (param_groups s))
                  = Some (lr_of g epoch step s))
    by (apply last_map_const; exact Hgroups).
  split; [exact Elr |]. split; [exact Eloss |]. split; [reflexivity |].
  split; [unfold micro_events; cbv zeta; simpl; right; left; reflexivity |].
  split.
  { rewrite micro_events_prints, andb_true_iff, Z.eqb_eq, designated_iff. reflexivity. }
  split.
  { intros c Hc. apply micro_events_printed in Hc. subst c.
    eexists. split; [reflexivity |].
    unfold report_line, progress_line. simpl ll_loss. simpl ll_lr.
    simpl ll_epoch. simpl ll_step.
    rewrite args_boundary_state. simpl args.
    replace (param_groups (boundary_state step
               (backward_state (epoch, step) (lr_of g epoch step s) (loss_of b s) s)))
      with (map (fun _ => lr_of g epoch step s) (param_groups s))
      by (unfold boundary_state; destruct (_ =? 0); reflexivity).
    rewrite Elast. repeat split; reflexivity. }
  split; [rewrite groups_micro_next; exact Elast |].
  intros t' aux mean Ht' Hmean.
  rewrite Ht in Ht'. injection Ht' as <- <-.
  rewrite (masked_mean_ok _ _ Hshape) in Hmean. injection Hmean as Hmean.
  unfold loss_of. rewrite Hloss, Hmean.
  rewrite fdiv_some by (apply not_0_IZR; exact Hacc).
  simpl. f_equal. apply scaled_back. exact Hacc.
Qed.

End ProgressReport.

(** ** C7: who assigns to [args] *)

Section Configuration.
Context {FW : Framework}.

Lemma configure_args (env : Environ) (s : TrainState) :
  command_line (args (snd (configure env s))) = command_line (args s)
  /\ save_dir (args (snd (configure env s))) = Some (out_dir (args s))
  /\ wandb_run_name (args (snd (configure env s))) = Some (run_name (args s))
  /\ (is_ddp env = false -> device (args (snd (configure env s))) = device (args s))
  /\ (forall r : Z * string,
        is_ddp env = true -> init_distributed_mode env = Ok r ->
        device (args (snd (configure env s))) = snd r).
Proof.
  unfold configure, set_args. run_calls.
  destruct (is_ddp env).
  - run_calls. destruct (init_distributed_mode env) as [r | e]; simpl;
      repeat split; try reflexivity; try discriminate.
    intros r' _ [= <-]. reflexivity.
  - simpl. repeat split; try reflexivity; try discriminate.
Qed.

Lemma main_after_configure (env : Environ) (loader : list Batch) (s : TrainState) :
  args (snd (main env loader s)) = args (snd (configure env s)).
Proof.
  unfold main. unfold bind at 1. unfold get_args at 1. cbv beta iota.
  unfold bind at 1.
  destruct (configure env s) as [[r | e] s1]; [| reflexivity].
  simpl snd.
  match goal with
  | |- args (snd (?rest s1)) = _ => assert (Hrest : frame (same args) rest)
  end.
  { unfold Logger. frame_steps.
    apply frame_for_each. intros i epoch. apply train_epoch_keeps_args. }
  apply Hrest.
Qed.

(** C7, as amended: the main block assigns to [args] three times before the
    training starts: it adds [save_dir] (the output directory) and
    [wandb_run_name], and in a distributed run it replaces [device] by the
    device of the local rank.  Every other attribute keeps the value parsed
    from the command line to the end of the program, [device] too in a
    single-process run, and the training loop assigns to no attribute. *)
Theorem args_fixed_after_configuration (env : Environ) (loader : list Batch)
    (s : TrainState) :
  command_line (args (snd (main env loader s))) = command_line (args s)
  /\ save_dir (args (snd (main env loader s))) = Some (out_dir (args s))
  /\ wandb_run_name (args (snd (main env loader s))) = Some (run_name (args s))
  /\ (is_ddp env = false -> device (args (snd (main env loader s))) = device (args s))
  /\ (forall r : Z * string,
        is_ddp env = true -> init_distributed_mode env = Ok r ->
        device (args (snd (main env loader s))) = "cuda:" +:+ str_int (fst r))
  /\ (forall (g : Globals) (epoch : Z) (wandb : bool) (s0 : TrainState),
        args (snd (train_epoch g epoch wandb s0)) = args s0).
Proof.
  rewrite main_after_configure.
  destruct (configure_args env s) as (Hcl & Hdir & Hname & Hdev & Hddp).
  repeat split; try assumption.
  - intros r Hd Hr. rewrite (Hddp r Hd Hr).
    unfold init_distributed_mode in Hr.
    destruct (env_RANK env), (env_LOCAL_RANK env), (env_WORLD_SIZE env);
      try discriminate.
    injection Hr as <-. reflexivity.
  - intros g epoch wandb s0. apply train_epoch_keeps_args.
Qed.

End Configuration.

(** C7 as stated fails: for the process of local rank 1 of a distributed
    run started with [--device cuda:0], the main block replaces
    [args.device] by [cuda:1], and it adds [args.save_dir] in every run. *)
Lemma device_reassigned_under_ddp :
  device (args (snd (@main Fixture.causal (Fixture.worker 1) (Fixture.loader 1)
                       (initial_state (with_device Fixture.default_args "cuda:0") ∅))))
  = "cuda:1"
  /\ device (with_device Fixture.default_args "cuda:0") = "cuda:0"
  /\ save_dir (args (snd (@main Fixture.causal Fixture.single (Fixture.loader 1)
                            (initial_state Fixture.default_args ∅))))
     = Some "out"
  /\ save_dir Fixture.default_args = None.
Proof. vm_compute. repeat split; reflexivity. Qed.

(** ** C10: one checkpoint file *)

Section OneFile.
Context {FW : Framework}.

Lemma last_save_app (a b : list Event) :
  last_save (a ++ b)
  = match last_save b with
    | Some w => Some w
    | None => last_save a
    end.
Proof.
  induction a as [| e a IH]; simpl.
  - destruct (last_save b); reflexivity.
  - rewrite IH. destruct (last_save b); reflexivity.
Qed.

Lemma last_save_none (l : list Event) :
  existsb is_save l = false -> last_save l = None.
Proof.
  induction l as [| e l IH]; simpl; [reflexivity |].
  intros H. apply orb_false_iff in H as [He Hl].
  rewrite (IH Hl). destruct e; try reflexivity. discriminate.
Qed.

Lemma no_save_in (l : list Event) (path : string) (snap : Snapshot) :
  existsb is_save l = false -> ~ In (EvSave path snap) l.
Proof.
  intros H Hin.
  assert (existsb is_save l = true); [| congruence].
  apply existsb_exists. exists (EvSave path snap). split; [exact Hin | reflexivity].
Qed.

Lemma saves_only_refl (ckp : string) (s : TrainState) : saves_only ckp s s.
Proof.
  exists []. rewrite app_nil_r. simpl. repeat split. intros path snap [].
Qed.

Lemma saves_only_trans (ckp : string) (s1 s2 s3 : TrainState) :
  saves_only ckp s1 s2 -> saves_only ckp s2 s3 -> saves_only ckp s1 s3.
Proof.
  intros (e1 & T1 & P1 & D1) (e2 & T2 & P2 & D2).
  exists (e1 ++ e2). split; [rewrite T2, T1, app_assoc; reflexivity |].
  split.
  - intros path snap Hin. apply in_app_or in Hin as [Hin | Hin]; eauto.
  - rewrite last_save_app, D2.
    destruct (last_save e2) as [[p2 sn2] |]; [| exact D1].
    rewrite D1. destruct (last_save e1) as [[p1 sn1] |]; [| reflexivity].
    apply insert_insert_eq.
Qed.

Lemma saves_only_micro_next (g : Globals) (wandb : bool) (t0 : R) (epoch step : Z)
    (b : Batch) (s : TrainState) :
  saves_only (ckp_path (default "" (save_dir (args s))) (lm_config g)) s
    (micro_next g wandb t0 epoch step b s).
Proof.
  unfold micro_next.
  set (lr := lr_of g epoch step s). set (loss := loss_of b s).
  exists (micro_events g wandb t0 epoch step lr loss s).
  split; [apply trace_micro_state |].
  destruct (micro_events_checkpoint g wandb t0 epoch step lr loss s)
    as (front & Hfront & ->).
  pose proof (micro_state_files g wandb t0 epoch step lr loss s) as Hfiles.
  cbv zeta in Hfiles.
  rewrite last_save_app.
  destruct (writes_checkpoint g step (args s)).
  - destruct Hfiles as [_ Hdisk]. split.
    + intros path snap Hin. apply in_app_or in Hin as [Hin | Hin].
      * exfalso. exact (no_save_in _ _ _ Hfront Hin).
      * simpl in Hin. destruct Hin as [Hin | [Hin | [Hin | []]]];
          try discriminate. injection Hin as <- _. reflexivity.
    + simpl. exact Hdisk.
  - destruct Hfiles as [_ Hdisk]. split.
    + intros path snap Hin. rewrite app_nil_r in Hin.
      exfalso. exact (no_save_in _ _ _ Hfront Hin).
    + simpl. rewrite (last_save_none _ Hfront). exact Hdisk.
Qed.

Lemma saves_only_steps (g : Globals) (wandb : bool) (t0 : R) (epoch : Z)
    (l : list Batch) :
  forall (i : Z) (s : TrainState),
    saves_only (ckp_path (default "" (save_dir (args s))) (lm_config g)) s
      (steps_state g wandb t0 epoch i l s).
Proof.
  induction l as [| b l IH]; intros i s; simpl.
  - apply saves_only_refl.
  - eapply saves_only_trans; [apply saves_only_micro_next |].
    specialize (IH (i + 1) (micro_next g wandb t0 epoch i b s)).
    rewrite args_micro_next in IH. exact IH.
Qed.

Lemma saves_only_epoch (g : Globals) (wandb : bool) (epoch : Z) (s : TrainState) :
  saves_only (ckp_path (default "" (save_dir (args s))) (lm_config g)) s
    (epoch_state g wandb epoch s).
Proof.
  unfold epoch_state.
  destruct (saves_only_steps g wandb (wall_clock (clock_reads s)) epoch
              (train_loader g) 0 (tick s)) as (evs & T & P & D).
  exists evs. repeat split; assumption.
Qed.

Lemma saves_only_epochs (g : Globals) (wandb : bool) (es : list Z) :
  forall s : TrainState,
    saves_only (ckp_path (default "" (save_dir (args s))) (lm_config g)) s
      (epochs_state g wandb es s).
Proof.
  induction es as [| e es IH]; intros s; simpl.
  - apply saves_only_refl.
  - eapply saves_only_trans; [apply saves_only_epoch |].
    specialize (IH (epoch_state g wandb e s)).
    rewrite args_epoch_state in IH. exact IH.
Qed.

(** C10: the checkpoint path is made of the output directory, the width and
    the mixture-of-experts flag, and of nothing else; so in a run of any
    number of epochs every checkpoint goes to that one path, no other file
    changes, and the file holds the snapshot written last. *)
Theorem one_checkpoint_file (g : Globals) (wandb : bool) (es : list Z)
    (s : TrainState) (dir : string) :
  forallb Loss.well_shaped (train_loader g) = true ->
  runnable g s ->
  save_dir (args s) = Some dir ->
  exists s' : TrainState,
    for_each (fun _ epoch => train_epoch g epoch wandb) 0 es s = (Ok tt, s')
    /\ (forall (path : string) (snap : Snapshot),
          In (EvSave path snap) (run_events s s') ->
          path = dir +:+ "/pretrain_" +:+ str_int (dim (lm_config g))
                 +:+ (if use_moe (lm_config g) then "_moe" else "") +:+ ".pth")
    /\ (forall path : string,
          path <> ckp_path dir (lm_config g) -> disk s' !! path = disk s !! path)
    /\ (forall (path : string) (snap : Snapshot),
          last_save (run_events s s') = Some (path, snap) ->
          disk s' !! ckp_path dir (lm_config g) = Some snap)
    /\ (last_save (run_events s s') = None -> disk s' = disk s).
Proof.
  intros Hl Hrun Hdir.
  exists (epochs_state g wandb es s).
  split; [apply epochs_run; assumption |].
  destruct (saves_only_epochs g wandb es s) as (evs & T & P & D).
  rewrite Hdir in P, D. simpl in P, D.
  assert (E : run_events s (epochs_state g wandb es s) = evs).
  { unfold run_events. rewrite T, skipn_app, Nat.sub_diag, skipn_all. reflexivity. }
  rewrite E. split; [exact P |]. split; [| split].
  - intros path Hne. rewrite D.
    destruct (last_save evs) as [[p sn] |]; [| reflexivity].
    apply lookup_insert_ne. congruence.
  - intros path snap Hlast. rewrite D, Hlast. apply lookup_insert_eq.
  - intros Hnone. rewrite D, Hnone. reflexivity.
Qed.

End OneFile.

(** * The theorems on a concrete run

    Each theorem above that has hypotheses is applied here to the small
    instance of [Fixture], where its hypotheses hold by computation. *)

Ltac fixture_runnable := repeat split; vm_compute; discriminate.

Lemma lr_within_tenth_and_eleven_tenths_witness :
  exists v : R,
    Schedule.get_lr 0 1 (5 / 10000) = Ok v
    /\ (5 / 10000 / 10 <= v <= 11 / 10 * (5 / 10000))%R.
Proof.
  destruct (lr_within_tenth_and_eleven_tenths (FW := Fixture.causal)
              (Fixture.globals_of 1 8 100 1) false 0%R 0 0 Fixture.full_batch
              (Fixture.start_of 1 8 100))
    as (v & Hv & Hrange & _).
  - vm_compute. discriminate.
  - change (0 < 5 / 10000)%R. lra.
  - exists v. split; [exact Hv | exact Hrange].
Defined.

Lemma boundary_calls_in_order_witness :
  exists (loss : option R) (tail : list Event),
    fst (@micro_step Fixture.causal (Fixture.globals_of 1 2 100 2) false 0%R 0 1
           Fixture.full_batch (Fixture.start_of 1 2 100)) = Ok tt
    /\ @step_events Fixture.causal (Fixture.globals_of 1 2 100 2) false 0%R 0 1
         Fixture.full_batch (Fixture.start_of 1 2 100)
       = [EvForward (0, 1); EvBackward (0, 1) loss; EvUnscale; EvClipGradNorm 1%R;
          EvScalerStep; EvScalerUpdate; EvZeroGrad] ++ tail.
Proof.
  destruct (boundary_calls_in_order (FW := Fixture.causal)
              (Fixture.globals_of 1 2 100 2) false 0%R 0 1 Fixture.full_batch
              (Fixture.start_of 1 2 100))
    as (loss & tail & Hok & _ & Hboundary & _).
  - fixture_runnable.
  - vm_compute. reflexivity.
  - exists loss, tail. split; [exact Hok |].
    apply Hboundary. vm_compute. reflexivity.
Defined.

Lemma loss_ignores_masked_positions_witness :
  @Loss.batch_loss Fixture.causal (Fixture.batch_of 1 5 0 0 1 0) 1
  = @Loss.batch_loss Fixture.causal (Fixture.batch_of 1 5 0 9 1 0) 1.
Proof.
  apply (loss_ignores_masked_positions (FW := Fixture.causal)).
  - split; [reflexivity |].
    split; (split; [reflexivity |]);
      intros [| i] [| [| j]] row m Hi Hj Hm; simpl in *;
      try discriminate; try reflexivity.
    injection Hi as <-. injection Hj as <-. contradiction.
  - reflexivity.
  - split; [reflexivity | intros; reflexivity].
  - reflexivity.
Defined.

Lemma checkpoint_on_interval_and_rank_zero_witness :
  existsb is_save
    (@step_events Fixture.causal (Fixture.globals_of 1 2 2 2) false 0%R 0 1
       Fixture.full_batch (Fixture.start_of 1 2 2)) = true
  <-> (1 + 1) mod 2 = 0 /\ (false = false \/ 0 = 0).
Proof.
  exact (proj1 (proj2 (checkpoint_on_interval_and_rank_zero (FW := Fixture.causal)
                         (Fixture.globals_of 1 2 2 2) false 0%R 0 1 Fixture.full_batch
                         (Fixture.start_of 1 2 2) "out"
                         ltac:(fixture_runnable)
                         ltac:(vm_compute; reflexivity)
                         ltac:(vm_compute; reflexivity)))).
Defined.

Lemma progress_line_on_rank_zero_witness :
  exists (lr : R) (loss : option R),
    Schedule.get_lr 0 2 (5 / 10000) = Ok lr
    /\ @Loss.batch_loss Fixture.causal Fixture.full_batch 2 = Ok loss
    /\ fst (@micro_step Fixture.causal (Fixture.globals_of 1 2 2 2) false 0%R 0 0
              Fixture.full_batch (Fixture.start_of 1 2 2)) = Ok tt.
Proof.
  destruct (progress_line_on_rank_zero (FW := Fixture.causal)
              (Fixture.globals_of 1 2 2 2) false 0%R 0 0 Fixture.full_batch
              (Fixture.start_of 1 2 2))
    as (lr & loss & Hlr & Hloss & Hok & _).
  - fixture_runnable.
  - vm_compute. reflexivity.
  - exists lr, loss. split; [exact Hlr | split; [exact Hloss | exact Hok]].
Defined.

Lemma trailing_gradients_carry_over_witness :
  exists s1 s2 : TrainState,
    @train_epoch Fixture.causal (Fixture.globals_of 2 2 100 3) 0 false
      (Fixture.start_of 2 2 100) = (Ok tt, s1)
    /\ @train_epoch Fixture.causal (Fixture.globals_of 2 2 100 3) (0 + 1) false s1
       = (Ok tt, s2)
    /\ grads s1 = [] ++ micro_steps 0 (3 - 3 mod 2) 3.
Proof.
  destruct (trailing_gradients_carry_over (FW := Fixture.causal)
              (Fixture.globals_of 2 2 100 3) false 0 (Fixture.start_of 2 2 100))
    as (s1 & s2 & U & H1 & H2 & Hg & _).
  - vm_compute. reflexivity.
  - fixture_runnable.
  - reflexivity.
  - vm_compute. reflexivity.
  - vm_compute. discriminate.
  - exists s1, s2. split; [exact H1 | split; [exact H2 | exact Hg]].
Defined.

Lemma loss_defined_iff_valid_token_witness :
  In 1 (Loss.view_flat (loss_mask Fixture.full_batch))
  <-> exists v : R, @Loss.batch_loss Fixture.causal Fixture.full_batch 8 = Ok (Some v).
Proof.
  refine (proj1 (loss_defined_iff_valid_token (FW := Fixture.causal)
                   Fixture.full_batch 8 _ _ _)).
  - vm_compute. reflexivity.
  - vm_compute. repeat (constructor; [right; reflexivity |]). constructor.
  - discriminate.
Defined.

Lemma one_checkpoint_file_witness :
  exists s' : TrainState,
    for_each (fun _ epoch => @train_epoch Fixture.causal (Fixture.globals_of 2 2 2 3)
                               epoch false)
      0 (range 2) (Fixture.start_of 2 2 2) = (Ok tt, s')
    /\ disk s' !! "out/pretrain_512.pth" = Some [[(0, 0); (0, 1)]; [(0, 2); (1, 0); (1, 1)]].
Proof.
  destruct (one_checkpoint_file (FW := Fixture.causal)
              (Fixture.globals_of 2 2 2 3) false (range 2) (Fixture.start_of 2 2 2) "out")
    as (s' & Hrun & _ & _ & Hlast & _).
  - vm_compute. reflexivity.
  - fixture_runnable.
  - vm_compute. reflexivity.
  - exists s'. split; [exact Hrun |].
    apply (Hlast "out/pretrain_512.pth").
    assert (E : s' = snd (for_each
                       (fun _ epoch => @train_epoch Fixture.causal
                                         (Fixture.globals_of 2 2 2 3) epoch false)
                       0 (range 2) (Fixture.start_of 2 2 2)))
      by (rewrite Hrun; reflexivity).
    rewrite E. vm_compute. reflexivity.
Defined.

(** * Further properties of the script *)

(** ** The shape of the schedule *)

Section ScheduleShape.
Import Schedule.

Lemma schedule_angle (k total : Z) :
  0 <= k <= total -> 0 < total ->
  (0 <= PI * IZR k / IZR total <= PI)%R.
Proof.
  intros [Hk0 Hk1] Ht.
  assert (Hpi : (0 < PI)%R) by apply PI_RGT_0.
  assert (HT : (0 < IZR total)%R) by (apply IZR_lt; exact Ht).
  assert (HK0 : (0 <= IZR k)%R) by (apply IZR_le; exact Hk0).
  assert (HK1 : (IZR k <= IZR total)%R) by (apply IZR_le; exact Hk1).
  split.
  - apply Rmult_le_pos; [apply Rmult_le_pos; lra |].
    apply Rlt_le, Rinv_0_lt_compat. exact HT.
  - apply (Rmult_le_reg_r (IZR total)); [exact HT |].
    unfold Rdiv. rewrite Rmult_assoc, Rinv_l by lra. nra.
Qed.

(** X1: The rate never rises from one step of the schedule to a later one. *)
Theorem lr_decays_along_schedule (k1 k2 total : Z) (lr v1 v2 : R) :
  0 <= k1 -> k1 <= k2 -> k2 <= total -> 0 < total ->
  (0 <= lr)%R ->
  get_lr k1 total lr = Ok v1 ->
  get_lr k2 total lr = Ok v2 ->
  (v2 <= v1)%R.
Proof.
  intros H0 H12 H2t Ht Hlr E1 E2.
  rewrite get_lr_ok in E1, E2 by lia.
  injection E1 as <-. injection E2 as <-.
  destruct (schedule_angle k1 total ltac:(lia) Ht) as [A1 B1].
  destruct (schedule_angle k2 total ltac:(lia) Ht) as [A2 B2].
  assert (Hcos : (cos (PI * IZR k2 / IZR total) <= cos (PI * IZR k1 / IZR total))%R).
  { apply cos_decr_1; try assumption.
    assert (Hpi : (0 < PI)%R) by apply PI_RGT_0.
    assert (HT : (0 < / IZR total)%R)
      by (apply Rinv_0_lt_compat, IZR_lt; exact Ht).
    assert (HK : (IZR k1 <= IZR k2)%R) by (apply IZR_le; exact H12).
    unfold Rdiv. apply Rmult_le_compat_r; [lra |].
    apply Rmult_le_compat_l; lra. }
  nra.
Qed.

(** X2: The floor [lr / 10] is the value at the end of the schedule, which the
    loop never asks for: for an epoch below [epochs] and a step below
    [iter_per_epoch], the rate is above the floor. *)
Theorem lr_above_floor_in_loop (n_epochs per_epoch epoch step : Z) (lr : R) :
  0 <= epoch < n_epochs -> 0 <= step < per_epoch ->
  (0 < lr)%R ->
  get_lr (n_epochs * per_epoch) (n_epochs * per_epoch) lr = Ok (lr / 10)%R
  /\ exists v : R,
       get_lr (epoch * per_epoch + step) (n_epochs * per_epoch) lr = Ok v
       /\ (lr / 10 < v)%R.
Proof.
  intros He Hs Hlr.
  assert (Htotal : 0 < n_epochs * per_epoch) by nia.
  assert (Hk : 0 <= epoch * per_epoch + step < n_epochs * per_epoch) by nia.
  assert (HT : (0 < IZR (n_epochs * per_epoch))%R) by (apply IZR_lt; exact Htotal).
  assert (Hpi : (0 < PI)%R) by apply PI_RGT_0.
  split.
  - rewrite get_lr_ok by lia. f_equal.
    replace (PI * IZR (n_epochs * per_epoch) / IZR (n_epochs * per_epoch))%R with PI
      by (field; lra).
    rewrite cos_PI. lra.
  - rewrite get_lr_ok by lia. eexists. split; [reflexivity |].
    destruct (schedule_angle (epoch * per_epoch + step) (n_epochs * per_epoch)
                ltac:(lia) Htotal) as [A B].
    assert (Hcos : (cos PI < cos (PI * IZR (epoch * per_epoch + step)
                                  / IZR (n_epochs * per_epoch)))%R).
    { apply cos_decreasing_1; try assumption; try lra.
      apply (Rmult_lt_reg_r (IZR (n_epochs * per_epoch))); [exact HT |].
      unfold Rdiv. rewrite Rmult_assoc, Rinv_l by lra.
      assert (IZR (epoch * per_epoch + step) < IZR (n_epochs * per_epoch))%R
        by (apply IZR_lt; lia).
      nra. }
    rewrite cos_PI in Hcos. nra.
Qed.

End ScheduleShape.

(** ** Where a micro-step raises *)

Section Failures.
Import Loss.
Context {FW : Framework}.

Lemma batch_loss_count_mismatch (b : Batch) (acc : Z) :
  List.length (view_flat (fst (model_forward (X b))))
  <> List.length (view_flat (Y b)) ->
  batch_loss b acc = Raise ShapeError.
Proof.
  unfold batch_loss, token_losses, loss_fct. intros H.
  destruct (model_forward (X b)) as [logits aux]. simpl in H.
  destruct (Nat.eqb_spec (List.length (view_flat logits)) (List.length (view_flat (Y b))))
    as [Hlen | Hlen]; [contradiction | reflexivity].
Qed.

(** Up to the backward pass. *)
Lemma micro_step_until_backward (g : Globals) (wandb : bool) (t0 : R)
    (epoch step : Z) (b : Batch) (s : TrainState) (loss : option R) :
  epochs (args s) * iter_per_epoch g <> 0 ->
  batch_loss b (accumulation_steps (args s)) = Ok loss ->
  micro_step g wandb t0 epoch step b s
  = (boundary step ;; report g wandb t0 epoch step loss ;; checkpoint g step)
      (backward_state (epoch, step) (lr_of g epoch step s) loss s).
Proof.
  intros Htotal Hloss.
  pose proof (get_lr_ok (epoch * iter_per_epoch g + step) _ (learning_rate (args s))
                Htotal) as Hlr.
  unfold micro_step, lr_of. rewrite Hlr.
  unfold bind at 1. unfold arg at 1. cbv beta iota.
  unfold bind at 1. unfold arg at 1. cbv beta iota.
  unfold bind at 1. unfold lift at 1. rewrite Hlr.
  unfold bind at 1. unfold Torch.set_lr at 1. cbv beta iota.
  unfold bind at 1. unfold emit at 1. cbv beta iota.
  unfold bind at 1. unfold arg at 1. cbv beta iota. simpl args.
  unfold bind at 1. unfold lift at 1. rewrite Hloss.
  unfold bind at 1. unfold Torch.backward at 1. cbv beta iota. simpl.
  rewrite <- app_assoc. reflexivity.
Qed.

(** X3: A batch for which the model returns logits for another number of
    positions than [Y] has targets raises in the loss function of lines
    68-71 (the framework's error for an input and a target of different
    batch size, [ShapeError] here): the rate of the step is already set, but
    nothing was backpropagated and the gradients, the parameters and the
    files are as before. *)
Theorem target_count_mismatch_raises_before_backward (g : Globals) (wandb : bool)
    (t0 : R) (epoch step : Z) (b : Batch) (s : TrainState) :
  epochs (args s) * iter_per_epoch g <> 0 ->
  List.length (view_flat (fst (model_forward (X b))))
  <> List.length (view_flat (Y b)) ->
  fst (micro_step g wandb t0 epoch step b s) = Raise ShapeError
  /\ trace (snd (micro_step g wandb t0 epoch step b s))
     = trace s ++ [EvForward (epoch, step)]
  /\ grads (snd (micro_step g wandb t0 epoch step b s)) = grads s
  /\ updates (snd (micro_step g wandb t0 epoch step b s)) = updates s
  /\ disk (snd (micro_step g wandb t0 epoch step b s)) = disk s
  /\ param_groups (snd (micro_step g wandb t0 epoch step b s))
     = map (fun _ => lr_of g epoch step s) (param_groups s).
Proof.
  intros Htotal Hb.
  pose proof (get_lr_ok (epoch * iter_per_epoch g + step) _ (learning_rate (args s))
                Htotal) as Hlr.
  assert (E : micro_step g wandb t0 epoch step b s
              = (Raise ShapeError,
                 {| args := args s;
                    param_groups := map (fun _ => lr_of g epoch step s) (param_groups s);
                    grads := grads s; updates := updates s; training := training s;
                    disk := disk s; clock_reads := clock_reads s;
                    trace := trace s ++ [EvForward (epoch, step)] |})).
  { unfold micro_step, lr_of. rewrite Hlr.
    unfold bind at 1. unfold arg at 1. cbv beta iota.
    unfold bind at 1. unfold arg at 1. cbv beta iota.
    unfold bind at 1. unfold lift at 1. rewrite Hlr.
    unfold bind at 1. unfold Torch.set_lr at 1. cbv beta iota.
    unfold bind at 1. unfold emit at 1. cbv beta iota.
    unfold bind at 1. unfold arg at 1. cbv beta iota. simpl args.
    unfold bind at 1. unfold lift at 1.
    rewrite (batch_loss_count_mismatch b _ Hb). reflexivity. }
  rewrite E. repeat split; reflexivity.
Qed.

End Failures.

Section ZeroIntervals.
Import Loss.
Context {FW : Framework}.

Lemma pymod_zero (a : Z) : pymod a 0 = Raise ZeroDivisionError.
Proof. reflexivity. Qed.

Lemma boundary_state_trace (step : Z) (s : TrainState) :
  exists tail : list Event,
    trace (boundary_state step s) = trace s ++ tail
    /\ count_events is_backward tail = 0%nat
    /\ existsb is_save tail = false
    /\ disk (boundary_state step s) = disk s
    /\ (param_groups s <> [] -> param_groups (boundary_state step s) <> []).
Proof.
  unfold boundary_state.
  destruct (_ =? 0).
  - exists (boundary_events (args s)). repeat split; auto.
  - exists []. rewrite app_nil_r. repeat split; auto.
Qed.

Lemma report_state_trace (g : Globals) (wandb : bool) (t0 : R) (epoch step : Z)
    (loss : option R) (s : TrainState) :
  exists tail : list Event,
    trace (report_state g wandb t0 epoch step loss s) = trace s ++ tail
    /\ count_events is_backward tail = 0%nat
    /\ existsb is_save tail = false
    /\ disk (report_state g wandb t0 epoch step loss s) = disk s.
Proof.
  unfold report_state.
  destruct (_ =? 0).
  - eexists. split; [reflexivity |]. unfold report_events.
    destruct (designated g), wandb; repeat split; reflexivity.
  - exists []. rewrite app_nil_r. repeat split; reflexivity.
Qed.

Lemma micro_step_zero_interval (g : Globals) (wandb : bool) (t0 : R)
    (epoch step : Z) (b : Batch) (s : TrainState) :
  epochs (args s) * iter_per_epoch g <> 0 ->
  well_shaped b = true ->
  param_groups s <> [] ->
  accumulation_steps (args s) = 0 \/ log_interval (args s) = 0
  \/ save_interval (args s) = 0 ->
  exists (s' : TrainState) (tail : list Event),
    micro_step g wandb t0 epoch step b s = (Raise ZeroDivisionError, s')
    /\ trace s'
       = trace s ++ [EvForward (epoch, step); EvBackward (epoch, step) (loss_of b s)]
         ++ tail
    /\ count_events is_backward tail = 0%nat
    /\ existsb is_save tail = false
    /\ disk s' = disk s.
Proof.
  intros Htotal Hb Hgroups Hzero.
  destruct (batch_loss_ok b (accumulation_steps (args s)) Hb) as (t & _ & _ & Hloss).
  assert (Eloss : batch_loss b (accumulation_steps (args s)) = Ok (loss_of b s)).
  { unfold loss_of. rewrite Hloss. reflexivity. }
  rewrite (micro_step_until_backward g wandb t0 epoch step b s _ Htotal Eloss).
  set (s1 := backward_state (epoch, step) (lr_of g epoch step s) (loss_of b s) s).
  assert (T1 : trace s1
               = trace s ++ [EvForward (epoch, step);
                             EvBackward (epoch, step) (loss_of b s)])
    by reflexivity.
  assert (G1 : param_groups s1 <> []).
  { unfold s1. simpl. destruct (param_groups s); [contradiction | discriminate]. }
  destruct (Z.eq_dec (accumulation_steps (args s)) 0) as [Hacc | Hacc].
  { exists s1, []. split.
    - unfold bind at 1. unfold boundary, bind, arg, lift. simpl args.
      rewrite Hacc, pymod_zero. reflexivity.
    - rewrite app_nil_r. split; [exact T1 | repeat split; reflexivity]. }
  unfold bind at 1. rewrite (boundary_run step s1 Hacc).
  destruct (boundary_state_trace step s1) as (bt & T2 & C2 & S2 & D2 & G2).
  set (s2 := boundary_state step s1) in *.
  assert (A2 : args s2 = args s)
    by (unfold s2; rewrite args_boundary_state; reflexivity).
  destruct (Z.eq_dec (log_interval (args s)) 0) as [Hli | Hli].
  { exists s2, bt. split.
    - unfold bind at 1. unfold report, bind, arg, lift.
      rewrite A2, Hli, pymod_zero. reflexivity.
    - rewrite T2, T1, <- app_assoc. split; [reflexivity |].
      split; [exact C2 |]. split; [exact S2 | exact D2]. }
  unfold bind at 1.
  rewrite (report_run g wandb t0 epoch step (loss_of b s) s2)
    by (rewrite ?A2; auto).
  destruct (report_state_trace g wandb t0 epoch step (loss_of b s) s2)
    as (rt & T3 & C3 & S3 & D3).
  set (s3 := report_state g wandb t0 epoch step (loss_of b s) s2) in *.
  assert (A3 : args s3 = args s)
    by (unfold s3; rewrite args_report_state; exact A2).
  assert (Hsi : save_interval (args s) = 0) by (destruct Hzero as [? | [? | ?]]; tauto).
  exists s3, (bt ++ rt). split.
  - unfold checkpoint, bind, arg, lift. rewrite A3, Hsi, pymod_zero. reflexivity.
  - rewrite T3, T2, T1, <- !app_assoc. split; [reflexivity |].
    split.
    + unfold count_events in *. rewrite List.filter_app, length_app, C2, C3. reflexivity.
    + rewrite existsb_app, S2, S3, D3, D2. split; reflexivity.
Qed.

(** X4: With [--accumulation_steps 0], [--log_interval 0] or
    [--save_interval 0] the first micro-step of an epoch raises
    [ZeroDivisionError] and the epoch ends there: one batch was
    backpropagated, no checkpoint was written. *)
Theorem zero_interval_stops_epoch (g : Globals) (epoch : Z) (wandb : bool)
    (s : TrainState) (b : Batch) (rest : list Batch) :
  train_loader g = b :: rest ->
  well_shaped b = true ->
  epochs (args s) * iter_per_epoch g <> 0 ->
  param_groups s <> [] ->
  accumulation_steps (args s) = 0 \/ log_interval (args s) = 0
  \/ save_interval (args s) = 0 ->
  fst (train_epoch g epoch wandb s) = Raise ZeroDivisionError
  /\ count_events is_backward (run_events s (snd (train_epoch g epoch wandb s))) = 1%nat
  /\ existsb is_save (run_events s (snd (train_epoch g epoch wandb s))) = false
  /\ disk (snd (train_epoch g epoch wandb s)) = disk s.
Proof.
  intros Hloader Hb Htotal Hgroups Hzero.
  destruct (micro_step_zero_interval g wandb (wall_clock (clock_reads s)) epoch 0 b
              (tick s) Htotal Hb Hgroups Hzero)
    as (s' & tail & Hrun & T & C & S & D).
  assert (E : train_epoch g epoch wandb s = (Raise ZeroDivisionError, s')).
  { unfold train_epoch. rewrite Hloader. unfold bind at 1. unfold Torch.time at 1.
    cbv beta iota. simpl for_each. unfold bind at 1.
    fold (tick s). rewrite Hrun. reflexivity. }
  rewrite E. simpl fst. simpl snd.
  assert (R : run_events s s'
              = [EvForward (epoch, 0); EvBackward (epoch, 0) (loss_of b (tick s))] ++ tail).
  { unfold run_events. rewrite T. simpl trace.
    rewrite skipn_app, Nat.sub_diag, skipn_all. reflexivity. }
  rewrite R. split; [reflexivity |]. split; [| split].
  - unfold count_events in *. simpl. rewrite C. reflexivity.
  - simpl. exact S.
  - exact D.
Qed.

End ZeroIntervals.

(** ** Counting over a whole run *)

Section RunCounts.
Context {FW : Framework}.

Lemma count_events_app (kind : Event -> bool) (a b : list Event) :
  count_events kind (a ++ b) = (count_events kind a + count_events kind b)%nat.
Proof. unfold count_events. rewrite List.filter_app, length_app. reflexivity. Qed.

Lemma micro_events_counts (g : Globals) (wandb : bool) (t0 : R) (epoch step : Z)
    (lr : R) (loss : option R) (s : TrainState) :
  count_events is_backward (micro_events g wandb t0 epoch step lr loss s) = 1%nat
  /\ count_events is_scaler_step (micro_events g wandb t0 epoch step lr loss s)
     = if (step + 1) mod accumulation_steps (args s) =? 0 then 1%nat else 0%nat.
Proof.
  unfold micro_events, report_events, checkpoint_events, boundary_events. cbv zeta.
  destruct ((step + 1) mod accumulation_steps (args s) =? 0);
    destruct (step mod log_interval (args s) =? 0);
    destruct (writes_checkpoint g step (args s));
    destruct (designated g); destruct wandb; split; reflexivity.
Qed.

(** What a micro-step adds: one backward pass, one gradient, and an update
    with an [EvScalerStep] event at a boundary. *)
Lemma micro_next_counts (g : Globals) (wandb : bool) (t0 : R) (epoch step : Z)
    (b : Batch) (s : TrainState) :
  let s' := micro_next g wandb t0 epoch step b s in
  count_events is_backward (trace s') = S (count_events is_backward (trace s))
  /\ (count_events is_scaler_step (trace s') + List.length (updates s)
      = count_events is_scaler_step (trace s) + List.length (updates s'))%nat
  /\ concat (updates s') ++ grads s'
     = concat (updates s) ++ grads s ++ [(epoch, step)].
Proof.
  cbv zeta. rewrite grads_micro_next, updates_micro_next.
  unfold micro_next. rewrite trace_micro_state, !count_events_app.
  destruct (micro_events_counts g wandb t0 epoch step (lr_of g epoch step s)
              (loss_of b s) s) as [-> ->].
  destruct ((step + 1) mod accumulation_steps (args s) =? 0).
  - rewrite length_app, concat_app. simpl. rewrite !app_nil_r.
    split; [lia | split; [lia | reflexivity]].
  - split; [lia | split; [lia | reflexivity]].
Qed.

Lemma steps_counts (g : Globals) (wandb : bool) (t0 : R) (epoch : Z) (l : list Batch) :
  forall (i : Z) (s : TrainState),
    let s' := steps_state g wandb t0 epoch i l s in
    count_events is_backward (trace s')
    = (count_events is_backward (trace s) + List.length l)%nat
    /\ (count_events is_scaler_step (trace s') + List.length (updates s)
        = count_events is_scaler_step (trace s) + List.length (updates s'))%nat
    /\ concat (updates s') ++ grads s'
       = concat (updates s) ++ grads s
         ++ map (fun k => (epoch, i + Z.of_nat k)) (seq 0 (List.length l)).
Proof.
  induction l as [| b l IH]; intros i s; cbv zeta; simpl steps_state.
  - simpl. rewrite !app_nil_r. repeat split; lia.
  - destruct (micro_next_counts g wandb t0 epoch i b s) as (B1 & S1 & C1).
    destruct (IH (i + 1) (micro_next g wandb t0 epoch i b s)) as (B2 & S2 & C2).
    cbv zeta in *. simpl List.length.
    split; [lia |]. split; [lia |].
    rewrite C2, app_assoc, C1, <- !app_assoc. do 2 f_equal. simpl.
    rewrite Z.add_0_r. f_equal.
    rewrite <- seq_shift, map_map. apply map_ext. intros k. f_equal. lia.
Qed.

Lemma micro_steps_seq (epoch : Z) (n : nat) :
  map (fun k => (epoch, 0 + Z.of_nat k)) (seq 0 n) = micro_steps epoch 0 (Z.of_nat n).
Proof.
  unfold micro_steps, zrange. rewrite Z.sub_0_r, Nat2Z.id, map_map. reflexivity.
Qed.

Lemma epochs_counts (g : Globals) (wandb : bool) (es : list Z) :
  forall s : TrainState,
    let s' := epochs_state g wandb es s in
    count_events is_backward (trace s')
    = (count_events is_backward (trace s)
       + List.length es * List.length (train_loader g))%nat
    /\ (count_events is_scaler_step (trace s') + List.length (updates s)
        = count_events is_scaler_step (trace s) + List.length (updates s'))%nat
    /\ concat (updates s') ++ grads s'
       = concat (updates s) ++ grads s
         ++ flat_map (fun e => micro_steps e 0 (Z.of_nat (List.length (train_loader g))))
              es.
Proof.
  induction es as [| e es IH]; intros s; cbv zeta; simpl epochs_state.
  - simpl. rewrite !app_nil_r. repeat split; lia.
  - destruct (steps_counts g wandb (wall_clock (clock_reads s)) e (train_loader g) 0
                (tick s)) as (B1 & S1 & C1).
    fold (epoch_state g wandb e s) in B1, S1, C1. simpl in B1, S1, C1.
    rewrite micro_steps_seq in C1.
    destruct (IH (epoch_state g wandb e s)) as (B2 & S2 & C2).
    cbv zeta in *. simpl List.length. simpl flat_map.
    split; [lia |]. split; [lia |].
    rewrite C2, app_assoc, C1, <- !app_assoc. reflexivity.
Qed.

(** X5: Over any number of epochs the loop hands the gradient of every
    micro-step to one call of [scaler.step] at most, and zeroes none that it
    has not handed to a call: the micro-steps handed to the calls, in their
    order, followed by those still accumulated, are those of before followed
    by every micro-step of the run, once and in order.  (What a call does
    with the gradients it is handed is the scaler's.) *)
Theorem micro_steps_reach_one_step_call (g : Globals) (wandb : bool) (es : list Z)
    (s : TrainState) :
  forallb Loss.well_shaped (train_loader g) = true ->
  runnable g s ->
  exists s' : TrainState,
    for_each (fun _ epoch => train_epoch g epoch wandb) 0 es s = (Ok tt, s')
    /\ concat (updates s') ++ grads s'
       = concat (updates s) ++ grads s
         ++ flat_map (fun e => micro_steps e 0 (Z.of_nat (List.length (train_loader g))))
              es.
Proof.
  intros Hl Hrun. exists (epochs_state g wandb es s).
  split; [apply epochs_run; assumption |].
  apply (epochs_counts g wandb es s).
Qed.

End RunCounts.

Section UpdateCount.
Context {FW : Framework}.

Lemma epochs_updates_length (g : Globals) (wandb : bool) (es : list Z) :
  forall s : TrainState,
    0 < accumulation_steps (args s) ->
    iter_per_epoch g = Z.of_nat (List.length (train_loader g)) ->
    Z.of_nat (List.length (updates (epochs_state g wandb es s)))
    = Z.of_nat (List.length (updates s))
      + Z.of_nat (List.length es) * (iter_per_epoch g / accumulation_steps (args s)).
Proof.
  induction es as [| e es IH]; intros s Ha Hn; simpl epochs_state.
  - simpl. lia.
  - destruct (epoch_gradients g wandb e s Ha Hn) as (U & HU & Hlen & _).
    rewrite IH by (rewrite ?args_epoch_state; assumption).
    rewrite args_epoch_state, HU, length_app. simpl List.length. lia.
Qed.

(** X6: A run of [k] epochs over [n] batches makes [k * n] backward passes and,
    for a positive [accumulation_steps], [k * (n / accumulation_steps)]
    calls of [scaler.step] (an integer division per epoch, not one over the
    whole run). *)
Theorem step_calls_per_run (g : Globals) (wandb : bool) (es : list Z) (s : TrainState) :
  forallb Loss.well_shaped (train_loader g) = true ->
  runnable g s ->
  0 < accumulation_steps (args s) ->
  iter_per_epoch g = Z.of_nat (List.length (train_loader g)) ->
  exists s' : TrainState,
    for_each (fun _ epoch => train_epoch g epoch wandb) 0 es s = (Ok tt, s')
    /\ count_events is_backward (run_events s s')
       = (List.length es * List.length (train_loader g))%nat
    /\ Z.of_nat (count_events is_scaler_step (run_events s s'))
       = Z.of_nat (List.length es) * (iter_per_epoch g / accumulation_steps (args s)).
Proof.
  intros Hl Hrun Ha Hn. exists (epochs_state g wandb es s).
  split; [apply epochs_run; assumption |].
  destruct (saves_only_epochs g wandb es s) as (evs & T & _ & _).
  assert (E : run_events s (epochs_state g wandb es s) = evs).
  { unfold run_events. rewrite T, skipn_app, Nat.sub_diag, skipn_all. reflexivity. }
  destruct (epochs_counts g wandb es s) as (B & S & _). cbv zeta in B, S.
  rewrite T, count_events_app in B, S.
  pose proof (epochs_updates_length g wandb es s Ha Hn) as L.
  rewrite E. split; lia.
Qed.

End UpdateCount.

(** ** The mode of the model *)

Section Modes.
Context {FW : Framework}.

Lemma mode_after_app (m : bool) (a b : list Event) :
  mode_after m (a ++ b) = mode_after (mode_after m a) b.
Proof.
  revert m. induction a as [| e a IH]; intros m; simpl; [reflexivity |].
  destruct e; apply IH.
Qed.

Lemma passes_in_training_app (m : bool) (a b : list Event) :
  passes_in_training m (a ++ b)
  = passes_in_training m a && passes_in_training (mode_after m a) b.
Proof.
  revert m. induction a as [| e a IH]; intros m; simpl; [reflexivity |].
  destruct e; rewrite ?IH, ?andb_assoc; reflexivity.
Qed.

Lemma micro_events_modes (g : Globals) (wandb : bool) (t0 : R) (epoch step : Z)
    (lr : R) (loss : option R) (s : TrainState) :
  passes_in_training true (micro_events g wandb t0 epoch step lr loss s) = true
  /\ mode_after true (micro_events g wandb t0 epoch step lr loss s) = true.
Proof.
  unfold micro_events, report_events, checkpoint_events, boundary_events. cbv zeta.
  destruct ((step + 1) mod accumulation_steps (args s) =? 0);
    destruct (step mod log_interval (args s) =? 0);
    destruct (writes_checkpoint g step (args s));
    destruct (designated g); destruct wandb; split; reflexivity.
Qed.

(** From [s] to [s'] the model stayed in training mode at every pass. *)
Lemma modes_micro_next (g : Globals) (wandb : bool) (t0 : R) (epoch step : Z)
    (b : Batch) (s : TrainState) :
  training s = true ->
  training (micro_next g wandb t0 epoch step b s) = true
  /\ exists evs : list Event,
       trace (micro_next g wandb t0 epoch step b s) = trace s ++ evs
       /\ passes_in_training true evs = true
       /\ mode_after true evs = true.
Proof.
  intros Ht. unfold micro_next. split.
  - pose proof (micro_state_files g wandb t0 epoch step (lr_of g epoch step s)
                  (loss_of b s) s) as H.
    cbv zeta in H. destruct (writes_checkpoint g step (args s)); destruct H as [H _].
    + exact H.
    + rewrite H. exact Ht.
  - eexists. split; [apply trace_micro_state |]. apply micro_events_modes.
Qed.

Lemma modes_steps (g : Globals) (wandb : bool) (t0 : R) (epoch : Z) (l : list Batch) :
  forall (i : Z) (s : TrainState),
    training s = true ->
    training (steps_state g wandb t0 epoch i l s) = true
    /\ exists evs : list Event,
         trace (steps_state g wandb t0 epoch i l s) = trace s ++ evs
         /\ passes_in_training true evs = true
         /\ mode_after true evs = true.
Proof.
  induction l as [| b l IH]; intros i s Ht; simpl.
  - split; [exact Ht |]. exists []. rewrite app_nil_r. repeat split.
  - destruct (modes_micro_next g wandb t0 epoch i b s Ht) as (Ht1 & e1 & T1 & P1 & M1).
    destruct (IH (i + 1) _ Ht1) as (Ht2 & e2 & T2 & P2 & M2).
    split; [exact Ht2 |]. exists (e1 ++ e2).
    rewrite T2, T1, app_assoc, passes_in_training_app, mode_after_app, P1, M1.
    repeat split; assumption.
Qed.

Lemma modes_epochs (g : Globals) (wandb : bool) (es : list Z) :
  forall s : TrainState,
    training s = true ->
    training (epochs_state g wandb es s) = true
    /\ exists evs : list Event,
         trace (epochs_state g wandb es s) = trace s ++ evs
         /\ passes_in_training true evs = true
         /\ mode_after true evs = true.
Proof.
  induction es as [| e es IH]; intros s Ht; simpl.
  - split; [exact Ht |]. exists []. rewrite app_nil_r. repeat split.
  - destruct (modes_steps g wandb (wall_clock (clock_reads s)) e (train_loader g) 0
                (tick s) Ht) as (Ht1 & e1 & T1 & P1 & M1).
    fold (epoch_state g wandb e s) in Ht1, T1. simpl in T1.
    destruct (IH _ Ht1) as (Ht2 & e2 & T2 & P2 & M2).
    split; [exact Ht2 |]. exists (e1 ++ e2).
    rewrite T2, T1, app_assoc, passes_in_training_app, mode_after_app, P1, M1.
    repeat split; assumption.
Qed.

(** X7: A run that starts in training mode makes every forward and backward
    pass in training mode and ends in training mode: the evaluation mode of
    a checkpoint lasts for the write only. *)
Theorem passes_only_in_training_mode (g : Globals) (wandb : bool) (es : list Z)
    (s : TrainState) :
  forallb Loss.well_shaped (train_loader g) = true ->
  runnable g s ->
  training s = true ->
  exists s' : TrainState,
    for_each (fun _ epoch => train_epoch g epoch wandb) 0 es s = (Ok tt, s')
    /\ passes_in_training true (run_events s s') = true
    /\ mode_after true (run_events s s') = true
    /\ training s' = true.
Proof.
  intros Hl Hrun Ht. exists (epochs_state g wandb es s).
  split; [apply epochs_run; assumption |].
  destruct (modes_epochs g wandb es s Ht) as (Ht' & evs & T & P & M).
  unfold run_events. rewrite T, skipn_app, Nat.sub_diag, skipn_all. simpl.
  repeat split; assumption.
Qed.

End Modes.

(** ** Epochs shorter than the checkpoint interval *)

Section ShortEpochs.
Context {FW : Framework}.

Lemma quiet_micro_next (g : Globals) (wandb : bool) (t0 : R) (epoch step : Z)
    (b : Batch) (s : TrainState) :
  0 <= step -> step + 1 < save_interval (args s) ->
  disk (micro_next g wandb t0 epoch step b s) = disk s
  /\ exists evs : list Event,
       trace (micro_next g wandb t0 epoch step b s) = trace s ++ evs
       /\ existsb is_save evs = false.
Proof.
  intros H0 Hlt. unfold micro_next.
  set (lr := lr_of g epoch step s). set (loss := loss_of b s).
  assert (Hw : writes_checkpoint g step (args s) = false).
  { unfold writes_checkpoint. rewrite Z.mod_small by lia.
    destruct (Z.eqb_spec (step + 1) 0); [lia | reflexivity]. }
  pose proof (micro_state_files g wandb t0 epoch step lr loss s) as Hfiles.
  cbv zeta in Hfiles. rewrite Hw in Hfiles. destruct Hfiles as [_ Hdisk].
  split; [exact Hdisk |].
  exists (micro_events g wandb t0 epoch step lr loss s).
  split; [apply trace_micro_state |].
  destruct (micro_events_checkpoint g wandb t0 epoch step lr loss s)
    as (front & Hfront & ->).
  rewrite Hw, app_nil_r. exact Hfront.
Qed.

Lemma quiet_steps (g : Globals) (wandb : bool) (t0 : R) (epoch : Z) (l : list Batch) :
  forall (i : Z) (s : TrainState),
    0 <= i -> i + Z.of_nat (List.length l) < save_interval (args s) ->
    disk (steps_state g wandb t0 epoch i l s) = disk s
    /\ exists evs : list Event,
         trace (steps_state g wandb t0 epoch i l s) = trace s ++ evs
         /\ existsb is_save evs = false.
Proof.
  induction l as [| b l IH]; intros i s H0 Hlt; simpl steps_state.
  - split; [reflexivity |]. exists []. rewrite app_nil_r. split; reflexivity.
  - simpl List.length in Hlt.
    destruct (quiet_micro_next g wandb t0 epoch i b s H0 ltac:(lia)) as (D1 & e1 & T1 & S1).
    destruct (IH (i + 1) (micro_next g wandb t0 epoch i b s)) as (D2 & e2 & T2 & S2);
      [lia | rewrite args_micro_next; lia |].
    split; [rewrite D2; exact D1 |].
    exists (e1 ++ e2). rewrite T2, T1, app_assoc, existsb_app, S1, S2.
    split; reflexivity.
Qed.

Lemma quiet_epochs (g : Globals) (wandb : bool) (es : list Z) :
  forall s : TrainState,
    Z.of_nat (List.length (train_loader g)) < save_interval (args s) ->
    disk (epochs_state g wandb es s) = disk s
    /\ exists evs : list Event,
         trace (epochs_state g wandb es s) = trace s ++ evs
         /\ existsb is_save evs = false.
Proof.
  induction es as [| e es IH]; intros s Hlt; simpl epochs_state.
  - split; [reflexivity |]. exists []. rewrite app_nil_r. split; reflexivity.
  - destruct (quiet_steps g wandb (wall_clock (clock_reads s)) e (train_loader g) 0
                (tick s) ltac:(lia) ltac:(simpl; lia)) as (D1 & e1 & T1 & S1).
    fold (epoch_state g wandb e s) in D1, T1. simpl in D1, T1.
    destruct (IH (epoch_state g wandb e s)) as (D2 & e2 & T2 & S2);
      [rewrite args_epoch_state; exact Hlt |].
    split; [rewrite D2; exact D1 |].
    exists (e1 ++ e2). rewrite T2, T1, app_assoc, existsb_app, S1, S2.
    split; reflexivity.
Qed.

(** X8: The checkpoint test counts the steps of the current epoch: when an
    epoch has fewer micro-steps than [save_interval], no epoch of the run
    reaches the interval and the run, however many epochs it has, writes no
    checkpoint and leaves the disk as it found it. *)
Theorem no_checkpoint_when_epochs_are_short (g : Globals) (wandb : bool)
    (es : list Z) (s : TrainState) :
  forallb Loss.well_shaped (train_loader g) = true ->
  runnable g s ->
  Z.of_nat (List.length (train_loader g)) < save_interval (args s) ->
  exists s' : TrainState,
    for_each (fun _ epoch => train_epoch g epoch wandb) 0 es s = (Ok tt, s')
    /\ existsb is_save (run_events s s') = false
    /\ disk s' = disk s.
Proof.
  intros Hl Hrun Hlt. exists (epochs_state g wandb es s).
  split; [apply epochs_run; assumption |].
  destruct (quiet_epochs g wandb es s Hlt) as (D & evs & T & S).
  unfold run_events. rewrite T, skipn_app, Nat.sub_diag, skipn_all. simpl.
  split; [exact S | exact D].
Qed.

End ShortEpochs.

(** ** Logging to the experiment tracker *)

Section Tracker.
Context {FW : Framework}.

Lemma micro_events_wandb (g : Globals) (wandb : bool) (t0 : R) (epoch step : Z)
    (lr : R) (loss : option R) (s : TrainState) :
  existsb is_wandb_log (micro_events g wandb t0 epoch step lr loss s)
  = wandb && designated g && (step mod log_interval (args s) =? 0).
Proof.
  unfold micro_events, report_events, checkpoint_events, boundary_events. cbv zeta.
  rewrite !existsb_app.
  destruct ((step + 1) mod accumulation_steps (args s) =? 0);
    destruct (step mod log_interval (args s) =? 0);
    destruct (writes_checkpoint g step (args s));
    destruct (designated g); destruct wandb; reflexivity.
Qed.

(** X9: A micro-step that runs to its end logs to the tracker exactly when the
    tracker is on, [step] is a multiple of [log_interval] and the process is
    the sole one or the one of global rank 0; and then it has printed the
    progress line too. *)
Theorem tracker_logs_with_the_progress_line (g : Globals) (wandb : bool) (t0 : R)
    (epoch step : Z) (b : Batch) (s : TrainState) :
  runnable g s ->
  Loss.well_shaped b = true ->
  (existsb is_wandb_log (step_events g wandb t0 epoch step b s) = true
   <-> wandb = true /\ step mod log_interval (args s) = 0
       /\ (ddp g = false \/ rank g = 0))
  /\ (existsb is_wandb_log (step_events g wandb t0 epoch step b s) = true ->
      existsb is_print (step_events g wandb t0 epoch step b s) = true).
Proof.
  intros Hrun Hb. rewrite (step_events_run _ _ _ _ _ _ _ Hrun Hb).
  rewrite micro_events_wandb, micro_events_prints.
  rewrite !andb_true_iff, Z.eqb_eq, designated_iff. split; tauto.
Qed.

End Tracker.

(** ** The main block *)

Section MainBlock.
Context {FW : Framework}.

Lemma configure_ok (env : Environ) (s : TrainState) :
  (is_ddp env = true -> env_LOCAL_RANK env <> None /\ env_WORLD_SIZE env <> None) ->
  exists (r : Z) (a : Args),
    configure env s = (Ok r, snd (set_args a s))
    /\ command_line a = command_line (args s)
    /\ save_dir a = Some (out_dir (args s)).
Proof.
  intros Henv. unfold configure. run_calls. unfold set_args.
  destruct (is_ddp env) eqn:Hddp.
  - destruct (Henv eq_refl) as [Hlocal Hworld].
    unfold is_ddp in Hddp. unfold init_distributed_mode.
    destruct (env_RANK env) as [rk |]; [| discriminate].
    destruct (env_LOCAL_RANK env) as [lc |]; [| contradiction].
    destruct (env_WORLD_SIZE env) as [ws |]; [| contradiction].
    run_calls. eexists. eexists. split; [reflexivity |]. split; reflexivity.
  - simpl. eexists. eexists. split; [reflexivity |]. split; reflexivity.
Qed.

Lemma Logger_run (g : Globals) (c : Content) (s : TrainState) :
  exists s1 : TrainState,
    Logger g c s = (Ok tt, s1)
    /\ args s1 = args s /\ param_groups s1 = param_groups s /\ grads s1 = grads s
    /\ updates s1 = updates s /\ training s1 = training s /\ disk s1 = disk s
    /\ trace s1 = trace s ++ (if designated g then [EvPrint c] else []).
Proof.
  unfold Logger. destruct (designated g); simpl.
  - eexists. split; [reflexivity |]. repeat split.
  - exists s. rewrite app_nil_r. repeat split.
Qed.

Lemma main_after_configure_ok (env : Environ) (loader : list Batch)
    (s s1 : TrainState) (r : Z) :
  configure env s = (Ok r, s1) ->
  exists s2 : TrainState,
    Logger (make_globals env (args s) loader)
      (ParamCountLine (param_count / 1000000)%R) s1 = (Ok tt, s2)
    /\ main env loader s
       = for_each
           (fun _ epoch =>
              train_epoch (make_globals env (args s) loader) epoch
                (use_wandb (args s)
                 && (negb (ddp (make_globals env (args s) loader)) || (r =? 0))))
           0 (range (epochs (args s2))) s2.
Proof.
  intros Hc.
  destruct (Logger_run (make_globals env (args s) loader)
              (ParamCountLine (param_count / 1000000)%R) s1) as (s2 & HL & _).
  exists s2. split; [exact HL |].
  unfold main. unfold bind at 1. unfold get_args at 1. cbv beta iota.
  unfold bind at 1. rewrite Hc.
  unfold bind at 1. rewrite HL.
  unfold bind at 1. unfold arg at 1. reflexivity.
Qed.

Lemma train_epoch_idle (g : Globals) (epoch : Z) (wandb : bool) (s : TrainState) :
  train_loader g = [] -> train_epoch g epoch wandb s = (Ok tt, tick s).
Proof. intros Hempty. unfold train_epoch. rewrite Hempty. reflexivity. Qed.

Lemma idle_epochs (g : Globals) (wandb : bool) (es : list Z) :
  train_loader g = [] ->
  forall (i : Z) (s : TrainState),
    exists s' : TrainState,
      for_each (fun _ epoch => train_epoch g epoch wandb) i es s = (Ok tt, s')
      /\ trace s' = trace s /\ updates s' = updates s /\ grads s' = grads s
      /\ disk s' = disk s /\ param_groups s' = param_groups s.
Proof.
  intros Hempty. induction es as [| e es IH]; intros i s; simpl.
  - exists s. repeat split.
  - unfold bind at 1. rewrite (train_epoch_idle g e wandb s Hempty).
    destruct (IH (i + 1) (tick s)) as (s' & Hrun & T & U & G & D & P).
    exists s'. split; [exact Hrun |]. repeat split; assumption.
Qed.

(** X10: With nothing to train on (no epoch, or an empty loader) the main block
    ends normally, whatever the intervals are, zero included: it prints the
    parameter count on the designated process and makes no forward pass, no
    update and no checkpoint; the parameter group keeps the base rate. *)
Theorem nothing_to_train (env : Environ) (loader : list Batch) (a : Args)
    (files : gmap string Snapshot) :
  (is_ddp env = true -> env_LOCAL_RANK env <> None /\ env_WORLD_SIZE env <> None) ->
  epochs a <= 0 \/ loader = [] ->
  exists s' : TrainState,
    main env loader (initial_state a files) = (Ok tt, s')
    /\ trace s'
       = (if designated (make_globals env a loader)
          then [EvPrint (ParamCountLine (param_count / 1000000)%R)] else [])
    /\ updates s' = [] /\ grads s' = [] /\ disk s' = files
    /\ param_groups s' = [learning_rate a].
Proof.
  intros Henv Hidle.
  destruct (configure_ok env (initial_state a files) Henv) as (r & a1 & Hc & Hcl & _).
  destruct (main_after_configure_ok env loader _ _ r Hc) as (s2 & HL & Hmain).
  destruct (Logger_run (make_globals env a loader)
              (ParamCountLine (param_count / 1000000)%R) (snd (set_args a1 (initial_state a files))))
    as (s2' & HL' & A2 & P2 & G2 & U2 & _ & D2 & T2).
  simpl args in HL. rewrite HL' in HL. injection HL as <-.
  rewrite Hmain. simpl args.
  destruct Hidle as [Hep | Hempty].
  - assert (E : epochs (args s2') = epochs a).
    { rewrite A2. simpl. unfold command_line in Hcl. simpl in Hcl. congruence. }
    rewrite E. unfold range.
    replace (Z.to_nat (epochs a)) with 0%nat by lia. simpl.
    exists s2'. split; [reflexivity |]. repeat split; assumption.
  - destruct (idle_epochs (make_globals env a loader)
                (use_wandb a && (negb (ddp (make_globals env a loader)) || (r =? 0)))
                (range (epochs (args s2'))) Hempty 0 s2')
      as (s' & Hrun & T & U & G & D & P).
    exists s'. split; [exact Hrun |].
    rewrite T, U, G, D, P. repeat split; assumption.
Qed.

End MainBlock.

Section MainRun.
Context {FW : Framework}.

(** X11: A distributed run whose launcher did not set [LOCAL_RANK] raises
    [KeyError] in [init_distributed_mode]: [args.save_dir] is already
    assigned, [args.device] is not replaced, and nothing was printed,
    trained or written. *)
Theorem missing_local_rank_raises (env : Environ) (loader : list Batch)
    (s : TrainState) :
  is_ddp env = true ->
  env_WORLD_SIZE env <> None ->
  env_LOCAL_RANK env = None ->
  fst (main env loader s) = Raise KeyError
  /\ trace (snd (main env loader s)) = trace s
  /\ disk (snd (main env loader s)) = disk s
  /\ save_dir (args (snd (main env loader s))) = Some (out_dir (args s))
  /\ device (args (snd (main env loader s))) = device (args s).
Proof.
  intros Hddp _ Hlocal.
  assert (E : exists s1 : TrainState,
             main env loader s = (Raise KeyError, s1)
             /\ trace s1 = trace s /\ disk s1 = disk s
             /\ save_dir (args s1) = Some (out_dir (args s))
             /\ device (args s1) = device (args s)).
  { unfold main. unfold bind at 1. unfold get_args at 1. cbv beta iota.
    unfold bind at 1. unfold configure. run_calls. unfold set_args. rewrite Hddp.
    run_calls. unfold init_distributed_mode. rewrite Hlocal.
    destruct (env_RANK env); eexists; (split; [reflexivity |]); repeat split. }
  destruct E as (s1 & -> & T & D & S & V). repeat split; assumption.
Qed.

Lemma length_range (n : Z) : List.length (range n) = Z.to_nat n.
Proof. unfold range. rewrite length_map, length_seq. reflexivity. Qed.

(** X12: With non-zero intervals, at least one epoch and a non-empty loader of
    well-shaped batches, the main block runs to its end from the parsed
    arguments: it backpropagates every batch of every epoch once, every
    micro-step from (0, 0) on is consumed by an update or still accumulated,
    in order, the model is back in training mode, and the only file that can
    have changed is the checkpoint in the output directory. *)
Theorem main_trains_every_batch (env : Environ) (loader : list Batch) (a : Args)
    (files : gmap string Snapshot) :
  (is_ddp env = true -> env_LOCAL_RANK env <> None /\ env_WORLD_SIZE env <> None) ->
  accumulation_steps a <> 0 -> log_interval a <> 0 -> save_interval a <> 0 ->
  0 < epochs a ->
  loader <> [] ->
  forallb Loss.well_shaped loader = true ->
  exists s' : TrainState,
    main env loader (initial_state a files) = (Ok tt, s')
    /\ count_events is_backward (trace s')
       = (Z.to_nat (epochs a) * List.length loader)%nat
    /\ concat (updates s') ++ grads s'
       = flat_map (fun e => micro_steps e 0 (Z.of_nat (List.length loader)))
           (range (epochs a))
    /\ training s' = true
    /\ (forall path : string,
          path <> ckp_path (out_dir a) (lm_config (make_globals env a loader)) ->
          disk s' !! path = files !! path).
Proof.
  intros Henv Hacc Hli Hsi Hep Hne Hl.
  destruct (configure_ok env (initial_state a files) Henv) as (r & a1 & Hc & Hcl & Hdir).
  destruct (main_after_configure_ok env loader _ _ r Hc) as (s2 & HL & Hmain).
  destruct (Logger_run (make_globals env a loader)
              (ParamCountLine (param_count / 1000000)%R)
              (snd (set_args a1 (initial_state a files))))
    as (s2' & HL' & A2 & P2 & G2 & U2 & M2 & D2 & T2).
  simpl args in HL. rewrite HL' in HL. injection HL as <-.
  rewrite Hmain. simpl args.
  set (g := make_globals env a loader) in *.
  simpl in A2, P2, G2, U2, M2, D2, T2, Hcl, Hdir.
  unfold command_line in Hcl.
  injection Hcl as E1 E2 E3 E4 E5 E6 E7 E8 E9 E10 E11 E12 E13 E14 E15 E16 E17 E18 E19 E20.
  assert (Hrun : runnable g s2').
  { unfold runnable. rewrite A2, P2.
    repeat split; try congruence.
    - assert (0 < iter_per_epoch g).
      { unfold g. simpl. destruct loader; [contradiction | simpl; lia]. }
      nia. }
  rewrite A2, E2.
  set (w := use_wandb a && (negb (ddp g) || (r =? 0))).
  exists (epochs_state g w (range (epochs a)) s2').
  split; [apply epochs_run; assumption |].
  destruct (epochs_counts g w (range (epochs a)) s2') as (B & _ & C).
  cbv zeta in B, C. rewrite U2, G2 in C. simpl in C.
  destruct (modes_epochs g w (range (epochs a)) s2' M2) as (Ht & _).
  destruct (saves_only_epochs g w (range (epochs a)) s2') as (evs & _ & _ & D).
  rewrite A2, Hdir, D2 in D. simpl in D.
  split.
  { rewrite B, T2, length_range.
    destruct (designated g); reflexivity. }
  split; [exact C |]. split; [exact Ht |].
  intros path Hpath. rewrite D.
  destruct (last_save evs) as [[p sn] |]; [| reflexivity].
  apply lookup_insert_ne. intros H. apply Hpath. symmetry. exact H.
Qed.

End MainRun.

(** * The further properties on a concrete run *)

Lemma lr_decays_along_schedule_witness :
  (5 / 10000 / 10 + 5 / 10 * (5 / 10000) * (1 + cos (PI * 50 / 100))
   <= 5 / 10000 / 10 + 5 / 10 * (5 / 10000) * (1 + cos (PI * 0 / 100)))%R.
Proof.
  apply (lr_decays_along_schedule 0 50 100 (5 / 10000)); try lia.
  - lra.
  - reflexivity.
  - reflexivity.
Defined.

Lemma lr_above_floor_in_loop_witness :
  exists v : R,
    Schedule.get_lr (0 * 3 + 2) (1 * 3) (5 / 10000) = Ok v
    /\ (5 / 10000 / 10 < v)%R.
Proof.
  destruct (lr_above_floor_in_loop 1 3 0 2 (5 / 10000)) as [_ H].
  - lia.
  - lia.
  - lra.
  - exact H.
Defined.

Lemma target_count_mismatch_raises_before_backward_witness :
  fst (@micro_step Fixture.causal (Fixture.globals_of 1 2 100 1) false 0%R 0 0
         {| X := [[1; 5]]; Y := [[0]]; loss_mask := [[1]] |}
         (Fixture.start_of 1 2 100)) = Raise ShapeError.
Proof.
  refine (proj1 (target_count_mismatch_raises_before_backward (FW := Fixture.causal)
                   (Fixture.globals_of 1 2 100 1) false 0%R 0 0
                   {| X := [[1; 5]]; Y := [[0]]; loss_mask := [[1]] |}
                   (Fixture.start_of 1 2 100) _ _)).
  - vm_compute. discriminate.
  - vm_compute. discriminate.
Defined.

Lemma zero_interval_stops_epoch_witness :
  fst (@train_epoch Fixture.causal (Fixture.globals_of 1 0 100 2) 0 false
         (Fixture.start_of 1 0 100)) = Raise ZeroDivisionError.
Proof.
  refine (proj1 (zero_interval_stops_epoch (FW := Fixture.causal)
                   (Fixture.globals_of 1 0 100 2) 0 false (Fixture.start_of 1 0 100)
                   Fixture.full_batch [Fixture.full_batch] _ _ _ _ _)).
  - reflexivity.
  - vm_compute. reflexivity.
  - vm_compute. discriminate.
  - vm_compute. discriminate.
  - left. vm_compute. reflexivity.
Defined.

Lemma micro_steps_reach_one_step_call_witness :
  exists s' : TrainState,
    for_each (fun _ epoch => @train_epoch Fixture.causal (Fixture.globals_of 2 2 100 3)
                               epoch false)
      0 (range 2) (Fixture.start_of 2 2 100) = (Ok tt, s')
    /\ concat (updates s') ++ grads s'
       = [(0, 0); (0, 1); (0, 2); (1, 0); (1, 1); (1, 2)].
Proof.
  destruct (micro_steps_reach_one_step_call (FW := Fixture.causal)
              (Fixture.globals_of 2 2 100 3) false (range 2) (Fixture.start_of 2 2 100))
    as (s' & Hrun & Hc).
  - vm_compute. reflexivity.
  - fixture_runnable.
  - exists s'. split; [exact Hrun |]. rewrite Hc. vm_compute. reflexivity.
Defined.

Lemma step_calls_per_run_witness :
  exists s' : TrainState,
    for_each (fun _ epoch => @train_epoch Fixture.causal (Fixture.globals_of 2 2 100 3)
                               epoch false)
      0 (range 2) (Fixture.start_of 2 2 100) = (Ok tt, s')
    /\ count_events is_backward (run_events (Fixture.start_of 2 2 100) s') = 6%nat
    /\ Z.of_nat (count_events is_scaler_step (run_events (Fixture.start_of 2 2 100) s'))
       = 2.
Proof.
  destruct (step_calls_per_run (FW := Fixture.causal)
              (Fixture.globals_of 2 2 100 3) false (range 2) (Fixture.start_of 2 2 100))
    as (s' & Hrun & Hb & Hs).
  - vm_compute. reflexivity.
  - fixture_runnable.
  - vm_compute. reflexivity.
  - reflexivity.
  - exists s'. split; [exact Hrun |]. split; [exact Hb | exact Hs].
Defined.

Lemma passes_only_in_training_mode_witness :
  exists s' : TrainState,
    for_each (fun _ epoch => @train_epoch Fixture.causal (Fixture.globals_of 2 2 2 3)
                               epoch false)
      0 (range 2) (Fixture.start_of 2 2 2) = (Ok tt, s')
    /\ passes_in_training true (run_events (Fixture.start_of 2 2 2) s') = true
    /\ training s' = true.
Proof.
  destruct (passes_only_in_training_mode (FW := Fixture.causal)
              (Fixture.globals_of 2 2 2 3) false (range 2) (Fixture.start_of 2 2 2))
    as (s' & Hrun & Hp & _ & Ht).
  - vm_compute. reflexivity.
  - fixture_runnable.
  - vm_compute. reflexivity.
  - exists s'. split; [exact Hrun |]. split; [exact Hp | exact Ht].
Defined.

Lemma no_checkpoint_when_epochs_are_short_witness :
  exists s' : TrainState,
    for_each (fun _ epoch => @train_epoch Fixture.causal (Fixture.globals_of 2 2 100 3)
                               epoch false)
      0 (range 2) (Fixture.start_of 2 2 100) = (Ok tt, s')
    /\ existsb is_save (run_events (Fixture.start_of 2 2 100) s') = false
    /\ disk s' = disk (Fixture.start_of 2 2 100).
Proof.
  apply (no_checkpoint_when_epochs_are_short (FW := Fixture.causal)
           (Fixture.globals_of 2 2 100 3) false (range 2) (Fixture.start_of 2 2 100)).
  - vm_compute. reflexivity.
  - fixture_runnable.
  - vm_compute. reflexivity.
Defined.

Lemma tracker_logs_with_the_progress_line_witness :
  existsb is_wandb_log
    (@step_events Fixture.causal (Fixture.globals_of 1 2 100 2) true 0%R 0 0
       Fixture.full_batch (Fixture.start_of 1 2 100)) = true
  <-> true = true /\ 0 mod 100 = 0 /\ (false = false \/ 0 = 0).
Proof.
  refine (proj1 (tracker_logs_with_the_progress_line (FW := Fixture.causal)
                   (Fixture.globals_of 1 2 100 2) true 0%R 0 0 Fixture.full_batch
                   (Fixture.start_of 1 2 100) _ _)).
  - fixture_runnable.
  - vm_compute. reflexivity.
Defined.

Lemma nothing_to_train_witness :
  exists s' : TrainState,
    @main Fixture.causal Fixture.single [] (initial_state Fixture.default_args ∅)
    = (Ok tt, s')
    /\ updates s' = [] /\ grads s' = [].
Proof.
  destruct (nothing_to_train (FW := Fixture.causal) Fixture.single []
              Fixture.default_args ∅)
    as (s' & Hrun & _ & Hu & Hg & _).
  - intros H. vm_compute in H. discriminate.
  - right. reflexivity.
  - exists s'. split; [exact Hrun |]. split; [exact Hu | exact Hg].
Defined.

Lemma missing_local_rank_raises_witness :
  fst (@main Fixture.causal
         {| env_RANK := Some 0; env_LOCAL_RANK := None; env_WORLD_SIZE := Some 2 |}
         (Fixture.loader 1) (initial_state Fixture.default_args ∅))
  = Raise KeyError.
Proof.
  refine (proj1 (missing_local_rank_raises (FW := Fixture.causal)
                   {| env_RANK := Some 0; env_LOCAL_RANK := None;
                      env_WORLD_SIZE := Some 2 |}
                   (Fixture.loader 1) (initial_state Fixture.default_args ∅) _ _ _)).
  - vm_compute. reflexivity.
  - discriminate.
  - reflexivity.
Defined.

Lemma main_trains_every_batch_witness :
  exists s' : TrainState,
    @main Fixture.causal Fixture.single (Fixture.loader 3)
      (initial_state (Fixture.args_with 2 2 100 100) ∅) = (Ok tt, s')
    /\ count_events is_backward (trace s') = 6%nat.
Proof.
  destruct (main_trains_every_batch (FW := Fixture.causal) Fixture.single
              (Fixture.loader 3) (Fixture.args_with 2 2 100 100) ∅)
    as (s' & Hrun & Hb & _).
  - intros H. vm_compute in H. discriminate.
  - discriminate.
  - discriminate.
  - discriminate.
  - reflexivity.
  - discriminate.
  - vm_compute. reflexivity.
  - exists s'. split; [exact Hrun | exact Hb].
Defined.
